(** * Embed.py: input embeddings of a time-series forecasting model

    Shallow embedding of [src/layers/Embed.py].

    - Scalars: the float32 tensors of the source are idealised as real
      numbers (Stdlib [R]); the convolution and linear layers are written
      over any type with [Num] operations, so that they also run on [Z].
    - Tensors: a rank-3 tensor is its three sizes together with its nested
      rows ([T3]); the sizes are kept explicitly because torch keeps
      [x.shape[1]] even when [x.shape[0] = 0].
    - Errors: a torch or Python exception (shape mismatch, index out of
      range, [KeyError], [ZeroDivisionError]) is [None].
    - Randomness: the random initial weights of learned layers and the
      random mask of dropout are arguments. *)

From Stdlib Require Import String Ascii.
From Stdlib Require Import List Arith Lia ZArith Reals Lra Bool.
Import ListNotations.

(** ** Scalars *)

Class Num (A : Type) := {
  nzero : A;
  nadd : A -> A -> A;
  nmul : A -> A -> A
}.

#[export] Instance Num_R : Num R := {| nzero := 0%R; nadd := Rplus; nmul := Rmult |}.
#[export] Instance Num_Z : Num Z := {| nzero := 0%Z; nadd := Z.add; nmul := Z.mul |}.

Definition vsum {A} `{Num A} (l : list A) : A := fold_right nadd nzero l.

(** ** Rank-3 tensors *)

Record T3 (A : Type) := mkT3 {
  dim0 : nat;
  dim1 : nat;
  dim2 : nat;
  rows : list (list (list A))
}.
Arguments mkT3 {A}.
Arguments dim0 {A}.
Arguments dim1 {A}.
Arguments dim2 {A}.
Arguments rows {A}.

Section Tensor.
Context {A : Type}.

(** The rows have the sizes the tensor claims. *)
Definition wf3 (x : T3 A) : Prop :=
  length (rows x) = dim0 x /\
  Forall (fun r => length r = dim1 x /\ Forall (fun v => length v = dim2 x) r) (rows x).

Definition wf3b (x : T3 A) : bool :=
  (length (rows x) =? dim0 x) &&
  forallb (fun r => (length r =? dim1 x) && forallb (fun v => length v =? dim2 x) r) (rows x).

(** [x[i, j, k]]. *)
Definition get3 (d : A) (x : T3 A) (i j k : nat) : A :=
  nth k (nth j (nth i (rows x) []) []) d.

(** [t[:, :n]] (Python slicing clamps at the end). *)
Definition slice1 (n : nat) (t : T3 A) : T3 A :=
  mkT3 (dim0 t) (Nat.min n (dim1 t)) (dim2 t) (map (firstn n) (rows t)).

(** [t[:, :, :n]]. *)
Definition slice2 (n : nat) (t : T3 A) : T3 A :=
  mkT3 (dim0 t) (dim1 t) (Nat.min n (dim2 t)) (map (map (firstn n)) (rows t)).

(** [torch.arange(start, stop, step)] for [step > 0]. *)
Definition arange (start stop step : nat) : list nat :=
  map (fun i => start + i * step) (seq 0 ((stop - start + step - 1) / step)).

(** Number of positions selected by the slice [start::step] in a dimension
    of size [n]. *)
Definition strided_count (n start step : nat) : nat :=
  if n <=? start then 0 else (n - start + step - 1) / step.

(** One row of [w[:, start::step] = src]: position [c] of the slice has
    rank [(c - start) / step]; a source of one column is broadcast. *)
Definition assign_strided_row (start step src_cols : nat) (srow row : list A) : list A :=
  map (fun cv =>
         let c := fst cv in
         if (start <=? c) && ((c - start) mod step =? 0)
         then nth (if src_cols =? 1 then 0 else (c - start) / step) srow (snd cv)
         else snd cv)
      (combine (seq 0 (length row)) row).

(** [w[:, start::step] = src] for a matrix [w] with [ncols] columns and a
    source with [src_cols] columns: torch broadcasts the source to the
    shape of the slice, so each source size must equal the slice's or be 1,
    and raises otherwise. *)
Definition bcast_ok (src tgt : nat) : bool := (src =? tgt) || (src =? 1).

Definition assign_cols (w : list (list A)) (ncols start step : nat)
    (src : list (list A)) (src_cols : nat) : option (list (list A)) :=
  if bcast_ok (length src) (length w) && bcast_ok src_cols (strided_count ncols start step)
  then Some (map (fun rr =>
                    assign_strided_row start step src_cols
                      (nth (if length src =? 1 then 0 else fst rr) src []) (snd rr))
                 (combine (seq 0 (length w)) w))
  else None.

End Tensor.

(** ** Sinusoidal tables

    Shared by [FixedEmbedding.__init__] (lines 12-20) and
    [PositionalEmbedding.__init__] (lines 139-149):
<<
    w = torch.zeros(n, d).float()
    position = torch.arange(0, n).float().unsqueeze(1)
    div_term = (torch.arange(0, d, 2).float() * -(math.log(10000.0) / d)).exp()
    w[:, 0::2] = torch.sin(position * div_term)
    w[:, 1::2] = torch.cos(position * div_term)
>>
    [math.log(10000.0) / d] raises [ZeroDivisionError] when [d = 0]. *)

Definition div_term (d : nat) : option (list R) :=
  if d =? 0 then None
  else Some (map (fun k => exp (INR k * - (ln 10000 / INR d)))%R (arange 0 d 2)).

Definition sinusoid_table (n d : nat) : option (list (list R)) :=
  match div_term d with
  | None => None
  | Some dt =>
      let arg := map (fun p => map (fun v => INR p * v)%R dt) (seq 0 n) in
      let w := repeat (repeat 0%R d) n in
      match assign_cols w d 0 2 (map (map sin) arg) (length dt) with
      | None => None
      | Some w1 => assign_cols w1 d 1 2 (map (map cos) arg) (length dt)
      end
  end.

(** ** Helpers: the option monad and elementwise operations *)

Notation "'let*' x ':=' m 'in' k" :=
  (match m with Some x => k | None => None end)
  (at level 200, x ident, m at level 100, k at level 200).

Fixpoint omap {X Y} (f : X -> option Y) (l : list X) : option (list Y) :=
  match l with
  | [] => Some []
  | a :: l' => let* b := f a in let* bs := omap f l' in Some (b :: bs)
  end.

Fixpoint zipWith {X Y Z} (f : X -> Y -> Z) (l1 : list X) (l2 : list Y) : list Z :=
  match l1, l2 with
  | a :: l1', b :: l2' => f a b :: zipWith f l1' l2'
  | _, _ => []
  end.

Section Elementwise.
Context {A : Type} `{Num A}.

Definition map3 {B} (f : A -> B) (x : T3 A) : T3 B :=
  mkT3 (dim0 x) (dim1 x) (dim2 x) (map (map (map f)) (rows x)).

(** Broadcast of two sizes: equal, or one of them is 1. *)
Definition bdim (a b : nat) : option nat :=
  if a =? b then Some a else if a =? 1 then Some b else if b =? 1 then Some a else None.

Definition bidx (n i : nat) : nat := if n =? 1 then 0 else i.

(** [x + y] with torch broadcasting. *)
Definition add3 (x y : T3 A) : option (T3 A) :=
  let* d0 := bdim (dim0 x) (dim0 y) in
  let* d1 := bdim (dim1 x) (dim1 y) in
  let* d2 := bdim (dim2 x) (dim2 y) in
  Some (mkT3 d0 d1 d2
    (map (fun i => map (fun j => map (fun k =>
        nadd (get3 nzero x (bidx (dim0 x) i) (bidx (dim1 x) j) (bidx (dim2 x) k))
             (get3 nzero y (bidx (dim0 y) i) (bidx (dim1 y) j) (bidx (dim2 y) k)))
      (seq 0 d2)) (seq 0 d1)) (seq 0 d0))).

(** [x + c] for a Python scalar [c]. *)
Definition add_scalar3 (x : T3 A) (c : A) : T3 A := map3 (fun v => nadd v c) x.

(** [x.permute(0, 2, 1)] (also [x.transpose(1, 2)]). *)
Definition permute021 (x : T3 A) : T3 A :=
  mkT3 (dim0 x) (dim2 x) (dim1 x)
    (map (fun m => map (fun k => map (fun r => nth k r nzero) m) (seq 0 (dim2 x))) (rows x)).

End Elementwise.

(** ** [nn.Embedding] lookups *)

Record Embedding (A : Type) := mkEmbedding {
  num_embeddings : nat;
  embedding_dim : nat;
  emb_weight : list (list A);
  emb_requires_grad : bool
}.
Arguments mkEmbedding {A}.
Arguments num_embeddings {A}.
Arguments embedding_dim {A}.
Arguments emb_weight {A}.
Arguments emb_requires_grad {A}.

(** Looking up an index outside [0, num_embeddings) raises. *)
Definition lookup_row {A} (e : Embedding A) (i : Z) : option (list A) :=
  if (0 <=? i)%Z && (i <? Z.of_nat (num_embeddings e))%Z
  then Some (nth (Z.to_nat i) (emb_weight e) [])
  else None.

(** [emb(idx)] for an index tensor [idx] of shape [B, L]. *)
Definition embedding_forward {A} (e : Embedding A) (B L : nat) (idx : list (list Z))
    : option (T3 A) :=
  let* r := omap (omap (lookup_row e)) idx in
  Some (mkT3 B L (embedding_dim e) r).

(** [x[:, :, k]]; an index past the last dimension raises. *)
Definition select_last {A} (d : A) (k : nat) (x : T3 A) : option (list (list A)) :=
  if k <? dim2 x then Some (map (map (fun v => nth k v d)) (rows x)) else None.

(** ** [FixedEmbedding] (lines 8-26)

    The table is the sinusoidal table of [c_in] rows and [d_model] columns;
    it replaces the weight of [nn.Embedding(c_in, d_model)] as a parameter
    with [requires_grad=False]. *)

Definition FixedEmbedding := Embedding R.

Definition FixedEmbedding_init (c_in d_model : nat) : option FixedEmbedding :=
  let* w := sinusoid_table c_in d_model in
  Some (mkEmbedding c_in d_model w false).

(** [self.emb(x).detach()]: [detach] does not change the values. *)
Definition FixedEmbedding_forward (e : FixedEmbedding) (B L : nat) (idx : list (list Z))
    : option (T3 R) :=
  embedding_forward e B L idx.

(** ** [PositionalEmbedding] (lines 127-168) *)

Record PositionalEmbedding := mkPositionalEmbedding {
  pe : T3 R   (** registered buffer, shape [1, max_len, d_model] *)
}.

Definition PositionalEmbedding_init (d_model : nat) (max_len : nat) : option PositionalEmbedding :=
  let d_model_raw := d_model in
  let d := if negb (d_model_raw mod 2 =? 0) then d_model + 1 else d_model in
  let* w := sinusoid_table max_len d in
  let pe0 := mkT3 1 max_len d [w] in          (* pe.unsqueeze(0) *)
  let pe1 := if negb (d_model_raw mod 2 =? 0) then slice2 d_model_raw pe0 else pe0 in
  Some (mkPositionalEmbedding pe1).

Definition max_len_default : nat := 5000.

(** [self.pe[:, :x.shape[1]]]. *)
Definition PositionalEmbedding_forward {X} (m : PositionalEmbedding) (x : T3 X) : T3 R :=
  slice1 (dim1 x) (pe m).

(** ** [TemporalEmbedding] (lines 29-56) *)

(** [x.long()]: truncation toward zero ([up r] is the least integer above [r]).
    This is the int64 cast for values strictly between [-2^63] and [2^63];
    past that range the cast does not truncate, but such values are outside
    every calendar table either way. *)
Definition trunc_Z (r : R) : Z :=
  if Rle_dec 0 r then (up r - 1)%Z else (- (up (- r) - 1))%Z.

(** A learned [nn.Embedding(n, d)] with its random initial table. *)
Definition learned_embedding (n d : nat) (w : list (list R)) : Embedding R :=
  mkEmbedding n d w true.

Record TemporalEmbedding := mkTemporalEmbedding {
  minute_embed : option (Embedding R);  (** present iff [hasattr(self, 'minute_embed')] *)
  hour_embed : Embedding R;
  weekday_embed : Embedding R;
  day_embed : Embedding R;
  month_embed : Embedding R
}.

Definition minute_size := 4.
Definition hour_size := 24.
Definition weekday_size := 7.
Definition day_size := 32.
Definition month_size := 13.

Section TemporalInit.
(** Random initial table of a learned [nn.Embedding(n, d)]. *)
Variable draw_table : nat -> nat -> list (list R).

(** [Embed = FixedEmbedding if embed_type == 'fixed' else nn.Embedding]. *)
Definition Embed (embed_type : string) (n d_model : nat) : option (Embedding R) :=
  if String.eqb embed_type "fixed" then FixedEmbedding_init n d_model
  else Some (learned_embedding n d_model (draw_table n d_model)).

Definition TemporalEmbedding_init (d_model : nat) (embed_type freq : string)
    : option TemporalEmbedding :=
  let* minute := (if String.eqb freq "t"
                  then let* e := Embed embed_type minute_size d_model in Some (Some e)
                  else Some None) in
  let* hour := Embed embed_type hour_size d_model in
  let* weekday := Embed embed_type weekday_size d_model in
  let* day := Embed embed_type day_size d_model in
  let* month := Embed embed_type month_size d_model in
  Some (mkTemporalEmbedding minute hour weekday day month).
End TemporalInit.

(** The term [minute_x]: a tensor, or the Python float [0.]. *)
Inductive term := TTensor (t : T3 R) | TScalar (c : R).

Definition TemporalEmbedding_forward (m : TemporalEmbedding) (x0 : T3 R) : option (T3 R) :=
  let x := map3 trunc_Z x0 in
  let col k e := (let* i := select_last 0%Z k x in embedding_forward e (dim0 x) (dim1 x) i) in
  let* minute_x := (match minute_embed m with
                    | Some e => let* t := col 4 e in Some (TTensor t)
                    | None => Some (TScalar 0%R)
                    end) in
  let* hour_x := col 3 (hour_embed m) in
  let* weekday_x := col 2 (weekday_embed m) in
  let* day_x := col 1 (day_embed m) in
  let* month_x := col 0 (month_embed m) in
  let* s1 := add3 hour_x weekday_x in
  let* s2 := add3 s1 day_x in
  let* s3 := add3 s2 month_x in
  match minute_x with
  | TTensor t => add3 s3 t
  | TScalar c => Some (add_scalar3 s3 c)
  end.

(** ** [nn.Linear] *)

Record Linear (A : Type) := mkLinear {
  in_features : nat;
  out_features : nat;
  lin_weight : list (list A);     (** [out_features] rows of [in_features] *)
  lin_bias : option (list A)      (** [None] for [bias=False] *)
}.
Arguments mkLinear {A}.
Arguments in_features {A}.
Arguments out_features {A}.
Arguments lin_weight {A}.
Arguments lin_bias {A}.

Section LinearLayer.
Context {A : Type} `{Num A}.

Definition dot (w v : list A) : A := vsum (zipWith nmul w v).

Definition linear_vec (l : Linear A) (v : list A) : list A :=
  let y := map (fun w => dot w v) (lin_weight l) in
  match lin_bias l with
  | None => y
  | Some b => zipWith nadd y b
  end.

(** [F.linear] on the last dimension; a size other than [in_features]
    raises. *)
Definition Linear_forward (l : Linear A) (x : T3 A) : option (T3 A) :=
  if dim2 x =? in_features l
  then Some (mkT3 (dim0 x) (dim1 x) (out_features l) (map (map (linear_vec l)) (rows x)))
  else None.
End LinearLayer.

(** ** [TimeFeatureEmbedding] (lines 59-69) *)

Definition freq_map : list (string * nat) :=
  [("h", 4); ("t", 5); ("s", 6); ("m", 1); ("a", 1); ("w", 2); ("d", 3); ("b", 3)]%string.

(** [freq_map[freq]]; a missing key raises [KeyError]. *)
Fixpoint lookup_str {V} (k : string) (m : list (string * V)) : option V :=
  match m with
  | [] => None
  | (k', v) :: m' => if String.eqb k k' then Some v else lookup_str k m'
  end.

Definition TimeFeatureEmbedding := Linear R.

Definition TimeFeatureEmbedding_init (d_model : nat) (freq : string)
    (draw_linear : nat -> nat -> list (list R)) : option TimeFeatureEmbedding :=
  let* d_inp := lookup_str freq freq_map in
  Some (mkLinear d_inp d_model (draw_linear d_inp d_model) None).

Definition TimeFeatureEmbedding_forward (m : TimeFeatureEmbedding) (x : T3 R) : option (T3 R) :=
  Linear_forward m x.

(** ** [TokenEmbedding] (lines 171-190)

    [padding = 1 if torch.__version__ >= '1.5.0' else 2] is modelled by the
    boolean [torch_ge_1_5] (the value of that comparison for the installed
    torch). The same flag selects how torch's [Conv1d] pads in
    [padding_mode='circular']: from 1.5 on, [padding] on each side; before
    1.5, [((padding + 1) // 2, padding // 2)]. *)

Record TokenEmbedding (A : Type) := mkTokenEmbedding {
  tok_c_in : nat;
  tok_d_model : nat;
  tok_padding : nat;
  tok_weight : list (list (list A))   (** [d_model][c_in][3], no bias *)
}.
Arguments mkTokenEmbedding {A}.
Arguments tok_c_in {A}.
Arguments tok_d_model {A}.
Arguments tok_padding {A}.
Arguments tok_weight {A}.

Definition kernel_size := 3.

Definition TokenEmbedding_init {A} (torch_ge_1_5 : bool) (c_in d_model : nat)
    (w : list (list (list A))) : TokenEmbedding A :=
  mkTokenEmbedding c_in d_model (if torch_ge_1_5 then 1 else 2) w.

(** Amounts of circular padding applied on the left and on the right. *)
Definition circular_amounts (torch_ge_1_5 : bool) (p : nat) : nat * nat :=
  if torch_ge_1_5 then (p, p) else ((p + 1) / 2, p / 2).

(** [F.pad(r, (lp, rp), mode='circular')] on a row of length [n]. *)
Definition circ_pad {A} (lp rp : nat) (r : list A) : list A :=
  skipn (length r - lp) r ++ r ++ firstn rp r.

Section Conv.
Context {A : Type} `{Num A}.

(** [nn.Conv1d(c_in, d_model, kernel_size=3, bias=False)] on one padded
    sample [xp] of shape [c_in, n]: output length [n - 2]. *)
Definition conv1d_valid (w : list (list (list A))) (c_in : nat) (xp : list (list A)) (n : nat)
    : list (list A) :=
  map (fun wo => map (fun t =>
         vsum (map (fun c => vsum (map (fun k =>
           nmul (nth k (nth c wo []) nzero) (nth (t + k) (nth c xp []) nzero))
           (seq 0 kernel_size))) (seq 0 c_in)))
       (seq 0 (n - (kernel_size - 1))))
      w.

(** [self.tokenConv(x.permute(0, 2, 1)).transpose(1, 2)]. Torch raises when
    the channels differ from [c_in], when the weight has no output channel
    ([d_model = 0]: "expected weight to be at least 1 at dimension 0"), when
    circular padding would wrap more than once, and when the padded length
    is below the kernel size. *)
Definition TokenEmbedding_forward (torch_ge_1_5 : bool) (m : TokenEmbedding A) (x : T3 A)
    : option (T3 A) :=
  let xc := permute021 x in
  let L := dim2 xc in
  let '(lp, rp) := circular_amounts torch_ge_1_5 (tok_padding m) in
  if negb (dim1 xc =? tok_c_in m) then None
  else if tok_d_model m =? 0 then None
  else if negb ((lp <=? L) && (rp <=? L)) then None
  else if L + lp + rp <? kernel_size then None
  else
    let n := L + lp + rp in
    let y := mkT3 (dim0 xc) (tok_d_model m) (n - (kernel_size - 1))
               (map (fun s => conv1d_valid (tok_weight m) (tok_c_in m) (map (circ_pad lp rp) s) n)
                    (rows xc)) in
    Some (permute021 y).
End Conv.

(** ** [nn.Dropout(p)]

    In training mode each element is kept (and scaled by [1 / (1 - p)])
    where the random [mask] is true and zeroed elsewhere; in evaluation
    mode it is the identity. *)
Definition dropout (p : R) (training : bool) (mask : nat -> nat -> nat -> bool) (x : T3 R) : T3 R :=
  if training
  then mkT3 (dim0 x) (dim1 x) (dim2 x)
         (map (fun ir => map (fun jr => map (fun kv =>
             if mask (fst ir) (fst jr) (fst kv) then (snd kv / (1 - p))%R else 0%R)
           (combine (seq 0 (length (snd jr))) (snd jr)))
           (combine (seq 0 (length (snd ir))) (snd ir)))
           (combine (seq 0 (length (rows x))) (rows x)))
  else x.

(** A sampled application of dropout: training flag and mask. *)
Record DropoutDraw := mkDropoutDraw {
  dd_training : bool;
  dd_mask : nat -> nat -> nat -> bool
}.

Definition apply_dropout (p : R) (dd : DropoutDraw) (x : T3 R) : T3 R :=
  dropout p (dd_training dd) (dd_mask dd) x.

(** ** Top-level variants (lines 72-124) *)

(** Random initial weights of the learned layers. *)
Record Draws := mkDraws {
  draw_conv : nat -> nat -> list (list (list R));   (** [c_in], [d_model] *)
  draw_table : nat -> nat -> list (list R);         (** [num_embeddings], [d_model] *)
  draw_linear : nat -> nat -> list (list R);        (** [in], [out] *)
  draw_bias : nat -> list R
}.

(** [self.temporal_embedding]: a [TemporalEmbedding] or a
    [TimeFeatureEmbedding]. *)
Inductive TemporalModule :=
| TM_Temporal (m : TemporalEmbedding)
| TM_TimeFeature (m : TimeFeatureEmbedding).

Definition TemporalModule_init (g : Draws) (d_model : nat) (embed_type freq : string)
    : option TemporalModule :=
  if negb (String.eqb embed_type "timeF")
  then let* m := TemporalEmbedding_init (draw_table g) d_model embed_type freq in
       Some (TM_Temporal m)
  else let* m := TimeFeatureEmbedding_init d_model freq (draw_linear g) in
       Some (TM_TimeFeature m).

Definition TemporalModule_forward (m : TemporalModule) (x_mark : T3 R) : option (T3 R) :=
  match m with
  | TM_Temporal t => TemporalEmbedding_forward t x_mark
  | TM_TimeFeature t => TimeFeatureEmbedding_forward t x_mark
  end.

Section TopLevel.
Variable torch_ge_1_5 : bool.

Record DataEmbedding := mkDataEmbedding {
  de_value_embedding : TokenEmbedding R;
  de_position_embedding : PositionalEmbedding;
  de_temporal_embedding : TemporalModule;
  de_dropout : R
}.

Definition DataEmbedding_init (g : Draws) (c_in d_model : nat) (embed_type freq : string)
    (p : R) : option DataEmbedding :=
  let value := TokenEmbedding_init torch_ge_1_5 c_in d_model (draw_conv g c_in d_model) in
  let* position := PositionalEmbedding_init d_model max_len_default in
  let* temporal := TemporalModule_init g d_model embed_type freq in
  Some (mkDataEmbedding value position temporal p).

Definition DataEmbedding_forward (m : DataEmbedding) (dd : DropoutDraw)
    (x : T3 R) (x_mark : option (T3 R)) : option (T3 R) :=
  match x_mark with
  | None =>
      let* v := TokenEmbedding_forward torch_ge_1_5 (de_value_embedding m) x in
      let* s := add3 v (PositionalEmbedding_forward (de_position_embedding m) x) in
      Some (apply_dropout (de_dropout m) dd s)
  | Some xm =>
      let* v := TokenEmbedding_forward torch_ge_1_5 (de_value_embedding m) x in
      let* t := TemporalModule_forward (de_temporal_embedding m) xm in
      let* s1 := add3 v t in
      let* s := add3 s1 (PositionalEmbedding_forward (de_position_embedding m) x) in
      Some (apply_dropout (de_dropout m) dd s)
  end.

Record DataEmbedding_inverted := mkDataEmbedding_inverted {
  di_value_embedding : Linear R;
  di_dropout : R
}.

Definition DataEmbedding_inverted_init (g : Draws) (c_in d_model : nat) (p : R)
    : DataEmbedding_inverted :=
  mkDataEmbedding_inverted
    (mkLinear c_in d_model (draw_linear g c_in d_model) (Some (draw_bias g d_model))) p.

(** [torch.cat([a, b], 1)]: the other sizes must agree. *)
Definition cat1 {A} (a b : T3 A) : option (T3 A) :=
  if (dim0 a =? dim0 b) && (dim2 a =? dim2 b)
  then Some (mkT3 (dim0 a) (dim1 a + dim1 b) (dim2 a) (zipWith (@app _) (rows a) (rows b)))
  else None.

Definition DataEmbedding_inverted_forward (m : DataEmbedding_inverted) (dd : DropoutDraw)
    (x0 : T3 R) (x_mark : option (T3 R)) : option (T3 R) :=
  let x := permute021 x0 in
  match x_mark with
  | None =>
      let* y := Linear_forward (di_value_embedding m) x in
      Some (apply_dropout (di_dropout m) dd y)
  | Some xm =>
      let* c := cat1 x (permute021 xm) in
      let* y := Linear_forward (di_value_embedding m) c in
      Some (apply_dropout (di_dropout m) dd y)
  end.

Record DataEmbedding_wo_pos := mkDataEmbedding_wo_pos {
  dw_value_embedding : TokenEmbedding R;
  dw_position_embedding : PositionalEmbedding;
  dw_temporal_embedding : TemporalModule;
  dw_dropout : R
}.

Definition DataEmbedding_wo_pos_init (g : Draws) (c_in d_model : nat) (embed_type freq : string)
    (p : R) : option DataEmbedding_wo_pos :=
  let value := TokenEmbedding_init torch_ge_1_5 c_in d_model (draw_conv g c_in d_model) in
  let* position := PositionalEmbedding_init d_model max_len_default in
  let* temporal := TemporalModule_init g d_model embed_type freq in
  Some (mkDataEmbedding_wo_pos value position temporal p).

Definition DataEmbedding_wo_pos_forward (m : DataEmbedding_wo_pos) (dd : DropoutDraw)
    (x : T3 R) (x_mark : option (T3 R)) : option (T3 R) :=
  match x_mark with
  | None =>
      let* v := TokenEmbedding_forward torch_ge_1_5 (dw_value_embedding m) x in
      Some (apply_dropout (dw_dropout m) dd v)
  | Some xm =>
      let* v := TokenEmbedding_forward torch_ge_1_5 (dw_value_embedding m) x in
      let* t := TemporalModule_forward (dw_temporal_embedding m) xm in
      let* s := add3 v t in
      Some (apply_dropout (dw_dropout m) dd s)
  end.

(** ** [PatchEmbedding] (lines 201-245) *)

(** [nn.ReplicationPad1d((0, n))]: the last element of each row repeated
    [n] times on the right; torch accepts an empty batch but raises on an
    empty channel or last dimension. *)
Definition replication_pad_right {A} (d : A) (n : nat) (x : T3 A) : option (T3 A) :=
  if (dim1 x =? 0) || (dim2 x =? 0) then None
  else Some (mkT3 (dim0 x) (dim1 x) (dim2 x + n)
               (map (map (fun r => r ++ repeat (last r d) n)) (rows x))).

(** The windows of [unfold]: [count] windows of [size] elements, each
    starting [step] elements after the previous one. *)
Fixpoint slide {A} (count size step : nat) (r : list A) : list (list A) :=
  match count with
  | 0 => []
  | S c => firstn size r :: slide c size step (skipn step r)
  end.

(** [unfold] makes [(n - size) / step + 1] windows of a dimension of
    size [n]. *)
Definition windows {A} (size step : nat) (r : list A) : list (list A) :=
  slide ((length r - size) / step + 1) size step r.

(** [x.unfold(dimension=-1, size=size, step=step)] followed by
    [torch.reshape(x, (x.shape[0] * x.shape[1], x.shape[2], x.shape[3]))].
    Torch raises when [step = 0] or when [size] exceeds the last
    dimension. *)
Definition unfold_reshape {A} (size step : nat) (x : T3 A) : option (T3 A) :=
  if (step =? 0) || negb (size <=? dim2 x) then None
  else Some (mkT3 (dim0 x * dim1 x) ((dim2 x - size) / step + 1) size
               (concat (map (map (windows size step)) (rows x)))).

Record PatchEmbedding := mkPatchEmbedding {
  patch_len : nat;
  stride : nat;
  pa_value_embedding : TokenEmbedding R;
  pa_position_embedding : PositionalEmbedding;
  pa_dropout : R
}.

Definition PatchEmbedding_init (g : Draws) (d_model plen strd token_num : nat) (p : R)
    : option PatchEmbedding :=
  let value := TokenEmbedding_init torch_ge_1_5 plen d_model (draw_conv g plen d_model) in
  let* position := PositionalEmbedding_init d_model max_len_default in
  Some (mkPatchEmbedding plen strd value position p).

(** The patching part of [forward]: padding, unfolding, reshaping. *)
Definition patchify (m : PatchEmbedding) (x : T3 R) : option (T3 R) :=
  let* xp := replication_pad_right 0%R (stride m) x in
  unfold_reshape (patch_len m) (stride m) xp.

Definition PatchEmbedding_forward (m : PatchEmbedding) (dd : DropoutDraw) (x : T3 R)
    : option (T3 R * nat) :=
  let n_channel := dim1 x in
  let* xw := patchify m x in
  let* ve := TokenEmbedding_forward torch_ge_1_5 (pa_value_embedding m) xw in
  let pe := PositionalEmbedding_forward (pa_position_embedding m) xw in
  let* x_embed := add3 ve pe in
  Some (apply_dropout (pa_dropout m) dd x_embed, n_channel).

End TopLevel.

(** ** Repeated calls: the module state threaded through [forward] *)

Fixpoint run_calls {S I O} (call : S -> I -> O * S) (s : S) (xs : list I) : list O * S :=
  match xs with
  | [] => ([], s)
  | x :: xs' =>
      let '(y, s1) := call s x in
      let '(ys, s2) := run_calls call s1 xs' in
      (y :: ys, s2)
  end.

(** [forward] reads [self.pe] and assigns no attribute. *)
Definition PositionalEmbedding_call (m : PositionalEmbedding) (x : T3 R)
    : T3 R * PositionalEmbedding :=
  (PositionalEmbedding_forward m x, m).

(** An index tensor with its sizes [B], [L]. *)
Definition index_input := (nat * nat * list (list Z))%type.

Definition FixedEmbedding_call (e : FixedEmbedding) (q : index_input)
    : option (T3 R) * FixedEmbedding :=
  let '(B, L, idx) := q in (FixedEmbedding_forward e B L idx, e).

(** ** Training: [loss.backward()] then [torch.optim.SGD(model.parameters(), lr).step()]

    [model.parameters()] lists the [nn.Parameter]s of the module tree:
    [value_embedding.tokenConv.weight] and the weights of the temporal
    module ([nn.Embedding] tables, or the [nn.Linear] of
    [TimeFeatureEmbedding]). [PositionalEmbedding.pe] is registered with
    [register_buffer] (line 158), so it is not a parameter. After
    [backward] a parameter has a [.grad] only when it requires grad; the
    table of a [FixedEmbedding] is [nn.Parameter(w, requires_grad=False)]
    (line 23), and its lookup is detached besides (line 26). [SGD.step]
    skips a parameter whose [.grad] is [None] and subtracts [lr * grad]
    from the others. The gradient values depend on the loss and the rest of
    the model: they are arguments. *)

Definition sgd_table (lr : R) (g : option (list (list R))) (w : list (list R)) : list (list R) :=
  match g with
  | None => w
  | Some gw => zipWith (zipWith (fun a b => a - lr * b)%R) w gw
  end.

(** [p.grad] after [backward]: [None] unless [p.requires_grad]. *)
Definition param_grad {T} (requires_grad : bool) (g : T) : option T :=
  if requires_grad then Some g else None.

Definition embedding_sgd (lr : R) (e : Embedding R) (g : list (list R)) : Embedding R :=
  mkEmbedding (num_embeddings e) (embedding_dim e)
    (sgd_table lr (param_grad (emb_requires_grad e) g) (emb_weight e)) (emb_requires_grad e).

(** The upstream gradients offered to each table of a [TemporalEmbedding]. *)
Record TemporalGrads := mkTemporalGrads {
  g_minute : list (list R);
  g_hour : list (list R);
  g_weekday : list (list R);
  g_day : list (list R);
  g_month : list (list R)
}.

Definition TemporalEmbedding_sgd (lr : R) (g : TemporalGrads) (t : TemporalEmbedding)
    : TemporalEmbedding :=
  mkTemporalEmbedding
    (match minute_embed t with Some e => Some (embedding_sgd lr e (g_minute g)) | None => None end)
    (embedding_sgd lr (hour_embed t) (g_hour g))
    (embedding_sgd lr (weekday_embed t) (g_weekday g))
    (embedding_sgd lr (day_embed t) (g_day g))
    (embedding_sgd lr (month_embed t) (g_month g)).

(** Gradients offered to the parameters of a [DataEmbedding]. *)
Record DataEmbedding_grads := mkDataEmbedding_grads {
  g_conv : list (list (list R));
  g_temporal : TemporalGrads;
  g_time_feature : list (list R)
}.

(** [nn.Conv1d] and [nn.Linear] weights require grad. *)
Definition TemporalModule_sgd (lr : R) (g : DataEmbedding_grads) (m : TemporalModule) : TemporalModule :=
  match m with
  | TM_Temporal t => TM_Temporal (TemporalEmbedding_sgd lr (g_temporal g) t)
  | TM_TimeFeature l =>
      TM_TimeFeature (mkLinear (in_features l) (out_features l)
                        (sgd_table lr (param_grad true (g_time_feature g)) (lin_weight l))
                        (lin_bias l))
  end.

Definition DataEmbedding_sgd (lr : R) (g : DataEmbedding_grads) (m : DataEmbedding) : DataEmbedding :=
  let v := de_value_embedding m in
  mkDataEmbedding
    (mkTokenEmbedding (tok_c_in v) (tok_d_model v) (tok_padding v)
       (zipWith (zipWith (zipWith (fun a b => a - lr * b)%R)) (tok_weight v) (g_conv g)))
    (de_position_embedding m)
    (TemporalModule_sgd lr g (de_temporal_embedding m))
    (de_dropout m).

(** What a training loop does with a module: call it, or take an optimizer
    step. *)
Inductive DataEmbedding_event :=
| DE_forward (dd : DropoutDraw) (x : T3 R) (x_mark : option (T3 R))
| DE_step (lr : R) (g : DataEmbedding_grads).

Definition DataEmbedding_event_call (torch_ge_1_5 : bool) (m : DataEmbedding) (ev : DataEmbedding_event)
    : option (option (T3 R)) * DataEmbedding :=
  match ev with
  | DE_forward dd x xm => (Some (DataEmbedding_forward torch_ge_1_5 m dd x xm), m)
  | DE_step lr g => (None, DataEmbedding_sgd lr g m)
  end.

Inductive FixedEmbedding_event :=
| FE_lookup (q : index_input)
| FE_step (lr : R) (g : list (list R)).

Definition FixedEmbedding_event_call (e : FixedEmbedding) (ev : FixedEmbedding_event)
    : option (option (T3 R)) * FixedEmbedding :=
  match ev with
  | FE_lookup q => let '(o, e') := FixedEmbedding_call e q in (Some o, e')
  | FE_step lr g => (None, embedding_sgd lr e g)
  end.

(** The tables of a [TemporalEmbedding]. *)
Definition TemporalEmbedding_tables (t : TemporalEmbedding) : list (Embedding R) :=
  match minute_embed t with Some e => [e] | None => [] end ++
  [hour_embed t; weekday_embed t; day_embed t; month_embed t].

(** ** Facts about the constructors *)

Lemma PositionalEmbedding_init_dim0 d_model max_len m :
  PositionalEmbedding_init d_model max_len = Some m -> dim0 (pe m) = 1.
Proof.
  unfold PositionalEmbedding_init.
  destruct (sinusoid_table _ _) as [w|]; [|discriminate].
  destruct (negb (d_model mod 2 =? 0)); intros H; injection H as <-; reflexivity.
Qed.

(** ** Lists: indices and lengths *)

Lemma nth_map_lt {X Y} (f : X -> Y) (l : list X) n d d0 :
  n < length l -> nth n (map f l) d = f (nth n l d0).
Proof.
  intros H. rewrite (nth_indep _ _ (f d0)) by (rewrite length_map; exact H).
  apply map_nth.
Qed.

Lemma nth_map_combine_seq {X Y} (f : nat * X -> Y) (l : list X) c dx dy :
  c < length l -> nth c (map f (combine (seq 0 (length l)) l)) dy = f (c, nth c l dx).
Proof.
  intros Hc.
  rewrite (nth_indep _ _ (f (0, dx))) by (rewrite length_map, length_combine, length_seq; lia).
  rewrite map_nth, combine_nth by apply length_seq.
  rewrite seq_nth by exact Hc. reflexivity.
Qed.

Lemma length_map_combine_seq {X Y} (f : nat * X -> Y) (l : list X) :
  length (map f (combine (seq 0 (length l)) l)) = length l.
Proof. rewrite length_map, length_combine, length_seq; lia. Qed.

Lemma length_arange2 d : length (arange 0 d 2) = (d + 1) / 2.
Proof.
  unfold arange. rewrite length_map, length_seq. f_equal. lia.
Qed.

Lemma nth_arange2 d i : i < (d + 1) / 2 -> nth i (arange 0 d 2) 0 = 2 * i.
Proof.
  intros Hi. unfold arange.
  replace (d - 0 + 2 - 1) with (d + 1) by lia.
  rewrite (nth_map_lt _ _ _ _ 0) by (rewrite length_seq; exact Hi).
  rewrite seq_nth by exact Hi. lia.
Qed.

Lemma strided_count_even d : strided_count d 0 2 = (d + 1) / 2.
Proof.
  unfold strided_count. destruct (Nat.leb_spec d 0).
  - replace d with 0 by lia. reflexivity.
  - f_equal. lia.
Qed.

Lemma strided_count_odd d : strided_count d 1 2 = d / 2.
Proof.
  unfold strided_count. destruct (Nat.leb_spec d 1).
  - destruct d as [|[|d]]; [reflexivity|reflexivity|lia].
  - f_equal. lia.
Qed.

(** ** Strided column assignment *)

Section Assign.
Context {A : Type}.

Lemma length_assign_strided_row start step sc (srow row : list A) :
  length (assign_strided_row start step sc srow row) = length row.
Proof. apply length_map_combine_seq. Qed.

Lemma nth_assign_strided_row start step sc (srow row : list A) c d :
  c < length row ->
  nth c (assign_strided_row start step sc srow row) d =
  if (start <=? c) && ((c - start) mod step =? 0)
  then nth (if sc =? 1 then 0 else (c - start) / step) srow (nth c row d)
  else nth c row d.
Proof.
  intros Hc. unfold assign_strided_row.
  rewrite (nth_map_combine_seq _ _ _ d) by exact Hc. reflexivity.
Qed.

Lemma assign_cols_some (w : list (list A)) ncols start step src sc :
  bcast_ok (length src) (length w) = true ->
  bcast_ok sc (strided_count ncols start step) = true ->
  assign_cols w ncols start step src sc =
  Some (map (fun rr => assign_strided_row start step sc
                         (nth (if length src =? 1 then 0 else fst rr) src []) (snd rr))
            (combine (seq 0 (length w)) w)).
Proof. intros H1 H2. unfold assign_cols. rewrite H1, H2. reflexivity. Qed.

Lemma assign_cols_none (w : list (list A)) ncols start step src sc :
  bcast_ok sc (strided_count ncols start step) = false ->
  assign_cols w ncols start step src sc = None.
Proof. intros H. unfold assign_cols. rewrite H, andb_false_r. reflexivity. Qed.

End Assign.

(** ** The sinusoidal table *)

Lemma div_term_some d :
  d <> 0 ->
  div_term d = Some (map (fun k => exp (INR k * - (ln 10000 / INR d)))%R (arange 0 d 2)).
Proof. intros Hd. unfold div_term. destruct (Nat.eqb_spec d 0); [lia|reflexivity]. Qed.

(** [math.log(10000.0) / 0] raises. *)
Lemma sinusoid_table_zero n : sinusoid_table n 0 = None.
Proof. reflexivity. Qed.

(** For odd [d >= 3], [torch.cos(position * div_term)] has [(d + 1) / 2]
    columns and [w[:, 1::2]] has [d / 2]: the assignment raises. *)
Lemma sinusoid_table_odd_none n d :
  d mod 2 = 1 -> 3 <= d -> sinusoid_table n d = None.
Proof.
  intros Hodd H3. unfold sinusoid_table.
  rewrite div_term_some by lia.
  set (dt := map _ (arange 0 d 2)).
  assert (Hdt : length dt = (d + 1) / 2) by (unfold dt; rewrite length_map; apply length_arange2).
  rewrite assign_cols_some.
  2: { rewrite !length_map, length_seq, repeat_length. unfold bcast_ok. rewrite Nat.eqb_refl. reflexivity. }
  2: { rewrite strided_count_even, Hdt. unfold bcast_ok. rewrite Nat.eqb_refl. reflexivity. }
  apply assign_cols_none.
  rewrite strided_count_odd, Hdt. unfold bcast_ok.
  assert (Hd : d = 2 * (d / 2) + 1) by (pose proof (Nat.div_mod_eq d 2); lia).
  assert (Hk : (d + 1) / 2 = d / 2 + 1)
    by (symmetry; apply (Nat.div_unique _ _ _ 0); lia).
  rewrite Hk.
  apply orb_false_iff; split; apply Nat.eqb_neq; lia.
Qed.

Lemma mod2_even j : (2 * j) mod 2 = 0 /\ (2 * j) / 2 = j /\ (1 <= j -> (2 * j - 1) mod 2 = 1).
Proof.
  split; [|split].
  - symmetry; apply (Nat.mod_unique _ _ j); lia.
  - symmetry; apply (Nat.div_unique _ _ _ 0); lia.
  - intros Hj. symmetry; apply (Nat.mod_unique _ _ (j - 1)); lia.
Qed.

Lemma mod2_odd j : (2 * j + 1 - 1) mod 2 = 0 /\ (2 * j + 1 - 1) / 2 = j.
Proof.
  replace (2 * j + 1 - 1) with (2 * j) by lia. destruct (mod2_even j) as [H1 [H2 _]]. auto.
Qed.

(** For even [d >= 2] both assignments succeed; column [2i] holds
    [sin(p * exp(-2i * ln(10000) / d))] and column [2i + 1] holds
    [cos(p * exp(-2i * ln(10000) / d))]. *)
Lemma sinusoid_table_even n d :
  d mod 2 = 0 -> 2 <= d ->
  exists w, sinusoid_table n d = Some w /\ length w = n /\
    Forall (fun r => length r = d) w /\
    (forall p i, p < n -> 2 * i < d ->
       nth (2 * i) (nth p w []) 0%R = sin (INR p * exp (- INR (2 * i) * ln 10000 / INR d))) /\
    (forall p i, p < n -> 2 * i + 1 < d ->
       nth (2 * i + 1) (nth p w []) 0%R = cos (INR p * exp (- INR (2 * i) * ln 10000 / INR d))).
Proof.
  intros Hev H2. unfold sinusoid_table.
  rewrite div_term_some by lia.
  set (dt := map _ (arange 0 d 2)).
  assert (Hk : (d + 1) / 2 = d / 2)
    by (symmetry; apply (Nat.div_unique _ _ _ 1); pose proof (Nat.div_mod_eq d 2); lia).
  assert (Hd2 : 2 * (d / 2) = d) by (pose proof (Nat.div_mod_eq d 2); lia).
  assert (Hdt : length dt = d / 2)
    by (unfold dt; rewrite length_map, length_arange2; exact Hk).
  assert (Hdtn : forall j, j < d / 2 ->
            nth j dt 0%R = exp (- INR (2 * j) * ln 10000 / INR d)).
  { intros j Hj. unfold dt.
    rewrite (nth_map_lt _ _ _ _ 0) by (rewrite length_arange2; lia).
    rewrite nth_arange2 by lia. f_equal. unfold Rdiv. ring. }
  set (arg := map (fun p => map (fun v => (INR p * v)%R) dt) (seq 0 n)).
  assert (Harg : length arg = n) by (unfold arg; rewrite length_map, length_seq; reflexivity).
  assert (Hargn : forall p, p < n -> nth p arg [] = map (fun v => (INR p * v)%R) dt).
  { intros p Hp. unfold arg. rewrite (nth_map_lt _ _ _ _ 0) by (rewrite length_seq; exact Hp).
    rewrite seq_nth by exact Hp. reflexivity. }
  set (w0 := repeat (repeat 0%R d) n).
  rewrite assign_cols_some.
  2: { unfold w0. rewrite length_map, Harg, repeat_length. unfold bcast_ok.
       rewrite Nat.eqb_refl. reflexivity. }
  2: { rewrite strided_count_even, Hdt, Hk. unfold bcast_ok. rewrite Nat.eqb_refl. reflexivity. }
  set (w1 := map _ (combine (seq 0 (length w0)) w0)).
  assert (Hw0 : length w0 = n) by (unfold w0; apply repeat_length).
  assert (Hw1 : length w1 = n) by (unfold w1; rewrite length_map_combine_seq; exact Hw0).
  rewrite assign_cols_some.
  2: { rewrite length_map, Harg, Hw1. unfold bcast_ok. rewrite Nat.eqb_refl. reflexivity. }
  2: { rewrite strided_count_odd, Hdt. unfold bcast_ok. rewrite Nat.eqb_refl. reflexivity. }
  eexists; split; [reflexivity|].
  set (w2 := map _ (combine (seq 0 (length w1)) w1)).
  assert (Hsel : forall p, p < n -> (if n =? 1 then 0 else p) = p)
    by (intros p Hp; destruct (Nat.eqb_spec n 1); lia).
  assert (Hw1n : forall p, p < n ->
            nth p w1 [] = assign_strided_row 0 2 (length dt)
                            (map sin (map (fun v => (INR p * v)%R) dt)) (repeat 0%R d)).
  { intros p Hp. unfold w1. rewrite (nth_map_combine_seq _ _ _ []) by lia. simpl.
    rewrite length_map, Harg, Hsel by exact Hp.
    rewrite (nth_map_lt _ _ _ _ []) by lia. rewrite Hargn by exact Hp.
    unfold w0. rewrite nth_repeat_lt by exact Hp. reflexivity. }
  assert (Hw2n : forall p, p < n ->
            nth p w2 [] = assign_strided_row 1 2 (length dt)
                            (map cos (map (fun v => (INR p * v)%R) dt)) (nth p w1 [])).
  { intros p Hp. unfold w2. rewrite (nth_map_combine_seq _ _ _ []) by lia. simpl.
    rewrite length_map, Harg, Hsel by exact Hp.
    rewrite (nth_map_lt _ _ _ _ []) by lia. rewrite Hargn by exact Hp. reflexivity. }
  assert (Hlen1 : forall p, p < n -> length (nth p w1 []) = d).
  { intros p Hp. rewrite Hw1n by exact Hp. rewrite length_assign_strided_row. apply repeat_length. }
  split; [unfold w2; rewrite length_map_combine_seq; exact Hw1|].
  split; [|split].
  - apply Forall_nth. intros p r Hp.
    unfold w2 in Hp. rewrite length_map_combine_seq, Hw1 in Hp.
    rewrite (nth_indep _ _ []) by (unfold w2; rewrite length_map_combine_seq; lia).
    rewrite Hw2n by exact Hp. rewrite length_assign_strided_row. apply Hlen1, Hp.
  - intros p i Hp Hi.
    destruct (mod2_even i) as [Hm [Hq Hm1]].
    rewrite Hw2n by exact Hp. rewrite nth_assign_strided_row by (rewrite Hlen1; lia).
    replace ((1 <=? 2 * i) && ((2 * i - 1) mod 2 =? 0)) with false.
    2: { destruct i as [|i]; [reflexivity|]. rewrite Hm1 by lia.
         rewrite andb_false_r. reflexivity. }
    rewrite Hw1n by exact Hp. rewrite nth_assign_strided_row by (rewrite repeat_length; lia).
    rewrite Nat.sub_0_r, Hm, Hq. simpl.
    replace (if length dt =? 1 then 0 else i) with i
      by (destruct (Nat.eqb_spec (length dt) 1); lia).
    rewrite (nth_map_lt _ _ _ _ 0%R) by (rewrite length_map; lia).
    rewrite (nth_map_lt _ _ _ _ 0%R) by lia.
    rewrite Hdtn by lia. reflexivity.
  - intros p i Hp Hi.
    destruct (mod2_odd i) as [Hm Hq].
    rewrite Hw2n by exact Hp. rewrite nth_assign_strided_row by (rewrite Hlen1; lia).
    rewrite Hm, Hq. replace (1 <=? 2 * i + 1) with true by (symmetry; apply Nat.leb_le; lia).
    simpl.
    replace (if length dt =? 1 then 0 else i) with i
      by (destruct (Nat.eqb_spec (length dt) 1); lia).
    rewrite (nth_map_lt _ _ _ _ 0%R) by (rewrite length_map; lia).
    rewrite (nth_map_lt _ _ _ _ 0%R) by lia.
    rewrite Hdtn by lia. reflexivity.
Qed.

(** For [d = 1] the cosine source has one column and broadcasts onto the
    empty slice [w[:, 1::2]]: the construction succeeds. *)
Lemma sinusoid_table_one n : exists w, sinusoid_table n 1 = Some w.
Proof.
  unfold sinusoid_table. rewrite div_term_some by lia.
  rewrite assign_cols_some.
  2: { rewrite !length_map, length_seq, repeat_length. unfold bcast_ok.
       rewrite Nat.eqb_refl. reflexivity. }
  2: { rewrite length_map, length_arange2. reflexivity. }
  rewrite assign_cols_some.
  - eexists; reflexivity.
  - rewrite !length_map, length_seq, length_combine, length_seq, repeat_length, Nat.min_id.
    unfold bcast_ok. rewrite Nat.eqb_refl. reflexivity.
  - rewrite length_map, length_arange2. reflexivity.
Qed.

(** The table built by [PositionalEmbedding(d_model, max_len)] for
    [d_model >= 1]: shape [1, max_len, d_model], with the sinusoids of the
    even width [d] ([d_model] rounded up to even). *)
Lemma PositionalEmbedding_init_spec d_model max_len :
  1 <= d_model ->
  let d := if d_model mod 2 =? 0 then d_model else d_model + 1 in
  exists m, PositionalEmbedding_init d_model max_len = Some m /\
    dim0 (pe m) = 1 /\ dim1 (pe m) = max_len /\ dim2 (pe m) = d_model /\ wf3 (pe m) /\
    (forall p i, p < max_len -> 2 * i < d_model ->
       get3 0%R (pe m) 0 p (2 * i) = sin (INR p * exp (- INR (2 * i) * ln 10000 / INR d))) /\
    (forall p i, p < max_len -> 2 * i + 1 < d_model ->
       get3 0%R (pe m) 0 p (2 * i + 1) = cos (INR p * exp (- INR (2 * i) * ln 10000 / INR d))).
Proof.
  intros H1 d. unfold PositionalEmbedding_init.
  destruct (sinusoid_table_even max_len d) as (w & Hw & Hlen & Hrows & Hsin & Hcos).
  { unfold d. destruct (Nat.eqb_spec (d_model mod 2) 0) as [E|E]; [exact E|].
    pose proof (Nat.mod_upper_bound d_model 2 ltac:(lia)).
    replace (d_model + 1) with ((d_model / 2 + 1) * 2)
      by (pose proof (Nat.div_mod_eq d_model 2); lia).
    apply Nat.Div0.mod_mul. }
  { unfold d. destruct (Nat.eqb_spec (d_model mod 2) 0) as [E|E]; [|lia].
    pose proof (Nat.div_mod_eq d_model 2). lia. }
  unfold d in Hw, Hrows, Hsin, Hcos.
  destruct (Nat.eqb_spec (d_model mod 2) 0) as [E|E]; cbn [negb]; rewrite Hw.
  - eexists; split; [reflexivity|]. cbn [pe dim0 dim1 dim2 rows].
    split; [reflexivity|]. split; [reflexivity|]. split; [reflexivity|].
    split; [split; [reflexivity|]; constructor; [split; [exact Hlen|exact Hrows]|constructor]|].
    split; intros p i Hp Hi; unfold get3; cbn [rows nth]; [apply Hsin|apply Hcos]; lia.
  - eexists; split; [reflexivity|]. cbn [pe dim0 dim1 dim2 rows slice2].
    split; [reflexivity|]. split; [reflexivity|]. split; [apply Nat.min_l; lia|].
    unfold wf3, get3, slice2; cbn [dim0 dim1 dim2 rows map nth].
    split.
    + split; [reflexivity|]. constructor; [|constructor].
      split; [rewrite length_map; exact Hlen|].
      apply Forall_map. eapply Forall_impl; [|exact Hrows].
      intros r Hr. cbn beta in Hr. rewrite length_firstn. lia.
    + split; intros p i Hp Hi;
        rewrite (nth_map_lt _ _ _ _ []) by lia; rewrite nth_firstn;
        (replace (_ <? d_model) with true by (symmetry; apply Nat.ltb_lt; lia));
        [apply Hsin|apply Hcos]; lia.
Qed.

(** ** Linear combinations of tensors *)

Definition lincomb3 (a b : R) (x y : T3 R) : T3 R :=
  mkT3 (dim0 x) (dim1 x) (dim2 x)
    (zipWith (zipWith (zipWith (fun u v => a * u + b * v)%R)) (rows x) (rows y)).

Definition zeros3 (B L D : nat) : T3 R := mkT3 B L D (repeat (repeat (repeat 0%R D) L) B).

Lemma map_zipWith_Forall2 {X Y Z W} (f : Z -> W) (g : X -> Y -> Z) (h : W -> W -> W)
    (k : X -> W) (k' : Y -> W) xs ys :
  Forall2 (fun x y => f (g x y) = h (k x) (k' y)) xs ys ->
  map f (zipWith g xs ys) = zipWith h (map k xs) (map k' ys).
Proof. induction 1; simpl; congruence. Qed.

Lemma Forall2_of_Forall {X Y} (P : X -> Prop) (Q : Y -> Prop) (Rel : X -> Y -> Prop) xs ys :
  length xs = length ys -> Forall P xs -> Forall Q ys ->
  (forall x y, P x -> Q y -> Rel x y) -> Forall2 Rel xs ys.
Proof.
  revert ys; induction xs as [|x xs IH]; intros [|y ys] Hl HP HQ HR; try discriminate.
  - constructor.
  - inversion HP; inversion HQ; subst. constructor; [auto|].
    apply IH; auto.
Qed.

Lemma zipWith_map_map {X Y Z W} (h : Y -> Z -> W) (f : X -> Y) (g : X -> Z) l :
  zipWith h (map f l) (map g l) = map (fun x => h (f x) (g x)) l.
Proof. induction l; simpl; congruence. Qed.

Lemma dot_lincomb (a b : R) (w x y : list R) :
  length x = length y ->
  dot w (zipWith (fun u v => a * u + b * v)%R x y) = (a * dot w x + b * dot w y)%R.
Proof.
  unfold dot. revert x y; induction w as [|c w IH]; intros x y Hl.
  - simpl. ring.
  - destruct x as [|u x], y as [|v y]; try discriminate; simpl.
    + ring.
    + rewrite IH by (simpl in Hl; lia). simpl. ring.
Qed.

Lemma dot_zeros (w : list R) n : dot w (repeat 0%R n) = 0%R.
Proof.
  unfold dot. revert n; induction w as [|c w IH]; intros [|n]; simpl; try reflexivity.
  rewrite IH. ring.
Qed.

(** A bias-free linear layer commutes with linear combinations of
    vectors of the same length. *)
Lemma linear_vec_lincomb (l : Linear R) (a b : R) v1 v2 :
  lin_bias l = None -> length v1 = length v2 ->
  linear_vec l (zipWith (fun u v => a * u + b * v)%R v1 v2) =
  zipWith (fun u v => a * u + b * v)%R (linear_vec l v1) (linear_vec l v2).
Proof.
  intros Hb Hl. unfold linear_vec. rewrite Hb.
  rewrite zipWith_map_map. apply map_ext. intros w. apply dot_lincomb, Hl.
Qed.

Lemma wf3b_spec {A} (x : T3 A) : wf3b x = true -> wf3 x.
Proof.
  unfold wf3b, wf3. intros H. apply andb_true_iff in H as [H0 H1].
  split; [apply Nat.eqb_eq, H0|].
  apply Forall_forall. intros r Hr. eapply forallb_forall in H1; [|exact Hr].
  apply andb_true_iff in H1 as [Hl Hv]. split; [apply Nat.eqb_eq, Hl|].
  apply Forall_forall. intros v Hv'. eapply forallb_forall in Hv; [|exact Hv'].
  apply Nat.eqb_eq, Hv.
Qed.

(** ** Circular convolution *)

Lemma nth_circ_pad1 {A} (s : list A) L i d :
  length s = L -> 1 <= L -> i < L + 2 ->
  nth i (circ_pad 1 1 s) d = nth ((i + L - 1) mod L) s d.
Proof.
  intros Hs HL Hi. unfold circ_pad. rewrite Hs.
  assert (Hsk : length (skipn (L - 1) s) = 1) by (rewrite length_skipn; lia).
  destruct (Nat.eq_dec i 0) as [->|Hi0].
  - rewrite app_nth1 by lia. rewrite nth_skipn.
    rewrite Nat.mod_small by lia. f_equal. lia.
  - rewrite app_nth2 by lia. rewrite Hsk.
    destruct (Nat.lt_ge_cases (i - 1) L) as [Hlt|Hge].
    + rewrite app_nth1 by lia.
      rewrite <- (Nat.mod_unique (i + L - 1) L 1 (i - 1)); [reflexivity|lia|lia].
    + rewrite app_nth2 by lia. rewrite nth_firstn.
      replace (i - 1 - length s) with 0 by lia. simpl.
      rewrite <- (Nat.mod_unique (i + L - 1) L 2 0); [reflexivity|lia|lia].
Qed.

Lemma circular_amounts_token torch_ge_1_5 :
  circular_amounts torch_ge_1_5 (if torch_ge_1_5 then 1 else 2) = (1, 1).
Proof. destruct torch_ge_1_5; reflexivity. Qed.

Section ConvSpec.
Context {A : Type} `{Num A}.

(** [TokenEmbedding] is a circular convolution of width 3: output
    position [t] of sample [b] combines the inputs at [t - 1], [t] and
    [t + 1] modulo [L]. *)
Lemma TokenEmbedding_forward_spec (torch_ge_1_5 : bool) (c_in d_model : nat)
    (w : list (list (list A))) (x : T3 A) :
  length w = d_model -> 1 <= d_model -> wf3 x -> dim2 x = c_in -> 1 <= dim1 x ->
  exists y,
    TokenEmbedding_forward torch_ge_1_5 (TokenEmbedding_init torch_ge_1_5 c_in d_model w) x = Some y /\
    dim0 y = dim0 x /\ dim1 y = dim1 x /\ dim2 y = d_model /\ wf3 y /\
    (forall b t o, b < dim0 x -> t < dim1 x -> o < d_model ->
       get3 nzero y b t o =
       vsum (map (fun c => vsum (map (fun k =>
         nmul (nth k (nth c (nth o w []) []) nzero)
              (get3 nzero x b ((t + k + dim1 x - 1) mod dim1 x) c))
         (seq 0 kernel_size))) (seq 0 c_in))).
Proof.
  intros Hw Hd [Hx0 Hx] Hc HL.
  unfold TokenEmbedding_forward, TokenEmbedding_init.
  cbn [tok_padding tok_c_in tok_d_model tok_weight].
  rewrite circular_amounts_token.
  change (dim1 (permute021 x)) with (dim2 x).
  change (dim2 (permute021 x)) with (dim1 x).
  change (dim0 (permute021 x)) with (dim0 x).
  rewrite Hc, Nat.eqb_refl. cbn [negb].
  replace (d_model =? 0) with false by (symmetry; apply Nat.eqb_neq; lia).
  replace ((1 <=? dim1 x) && (1 <=? dim1 x)) with true
    by (symmetry; apply andb_true_iff; split; apply Nat.leb_le; lia).
  replace (dim1 x + 1 + 1 <? kernel_size) with false
    by (symmetry; apply Nat.ltb_ge; unfold kernel_size; lia).
  cbn [negb].
  set (L := dim1 x).
  eexists. split; [reflexivity|].
  unfold permute021. cbn [dim0 dim1 dim2 rows].
  replace (L + 1 + 1 - (kernel_size - 1)) with L by (unfold kernel_size; lia).
  split; [reflexivity|]. split; [reflexivity|]. split; [reflexivity|].
  split.
  - unfold wf3; cbn [dim0 dim1 dim2 rows].
    split; [rewrite !length_map; exact Hx0|].
    apply Forall_map, Forall_map, Forall_map. apply Forall_forall. intros xb Hxb.
    split; [rewrite length_map, length_seq; reflexivity|].
    apply Forall_map. apply Forall_forall. intros t Ht.
    rewrite length_map. unfold conv1d_valid. rewrite length_map. exact Hw.
  - intros b t o Hb Ht Ho.
    pose proof (proj1 (Forall_nth _ _) Hx b [] ltac:(lia)) as [HxbL HxbV].
    unfold get3 at 1. cbn [rows].
    set (perm := fun m : list (list A) =>
                   map (fun k => map (fun r => nth k r nzero) m) (seq 0 (dim2 x))).
    set (conv := fun s => conv1d_valid w c_in (map (circ_pad 1 1) s) (L + 1 + 1)).
    set (back := fun m : list (list A) =>
                   map (fun k => map (fun r => nth k r nzero) m) (seq 0 L)).
    rewrite (nth_map_lt back _ _ _ []) by (rewrite !length_map; lia).
    rewrite (nth_map_lt conv _ _ _ []) by (rewrite length_map; lia).
    rewrite (nth_map_lt perm _ _ _ []) by lia.
    unfold back, conv, perm; cbv beta.
    rewrite (nth_map_lt _ (seq 0 L) _ _ 0) by (rewrite length_seq; lia).
    rewrite seq_nth by lia. cbn [Nat.add].
    unfold conv1d_valid.
    rewrite (nth_map_lt _ _ _ _ []) by (rewrite length_map; lia).
    rewrite (nth_map_lt _ w _ _ []) by lia.
    rewrite (nth_map_lt _ _ _ _ 0) by (rewrite length_seq; unfold kernel_size; lia).
    rewrite seq_nth by (unfold kernel_size; lia). cbn [Nat.add].
    apply f_equal, map_ext_in. intros c Hcin. apply in_seq in Hcin.
    apply f_equal, map_ext_in. intros k Hk. apply in_seq in Hk. unfold kernel_size in Hk.
    f_equal.
    rewrite (nth_map_lt _ _ _ _ []) by (rewrite length_map, length_seq; lia).
    rewrite (nth_map_lt _ _ _ _ 0) by (rewrite length_seq; lia).
    rewrite seq_nth by lia. cbn [Nat.add].
    rewrite (nth_circ_pad1 _ L) by (rewrite ?length_map; lia).
    unfold get3.
    rewrite (nth_map_lt _ _ _ _ []).
    2: { pose proof (Nat.mod_upper_bound (t + k + L - 1) L ltac:(lia)). lia. }
    reflexivity.
Qed.
End ConvSpec.

(** ** Temporal lookups *)

Lemma up_IZR z : up (IZR z) = (z + 1)%Z.
Proof.
  symmetry. apply tech_up; rewrite plus_IZR; lra.
Qed.

Lemma trunc_Z_IZR z : trunc_Z (IZR z) = z.
Proof.
  unfold trunc_Z. destruct (Rle_dec 0 (IZR z)) as [Hz|Hz].
  - rewrite up_IZR. lia.
  - rewrite <- opp_IZR, up_IZR. apply Rnot_le_lt in Hz. apply lt_IZR in Hz. lia.
Qed.

Lemma map3_trunc_IZR (x : T3 Z) : map3 trunc_Z (map3 IZR x) = x.
Proof.
  destruct x as [d0 d1 d2 r]. unfold map3; cbn [dim0 dim1 dim2 rows]. f_equal.
  rewrite map_map. rewrite <- (map_id r) at 2. apply map_ext. intros a.
  rewrite map_map. rewrite <- (map_id a) at 2. apply map_ext. intros v.
  rewrite map_map. rewrite <- (map_id v) at 2. apply map_ext. intros z.
  apply trunc_Z_IZR.
Qed.

Lemma select_last_lt {A} (d : A) k (x : T3 A) :
  k < dim2 x -> select_last d k x = Some (map (map (fun v => nth k v d)) (rows x)).
Proof.
  intros Hk. unfold select_last. destruct (Nat.ltb_spec k (dim2 x)); [reflexivity|lia].
Qed.

Lemma select_last_ge {A} (d : A) k (x : T3 A) : dim2 x <= k -> select_last d k x = None.
Proof.
  intros Hk. unfold select_last. destruct (Nat.ltb_spec k (dim2 x)); [lia|reflexivity].
Qed.

Lemma embedding_forward_dims {A} (e : Embedding A) B L idx t :
  embedding_forward e B L idx = Some t ->
  dim0 t = B /\ dim1 t = L /\ dim2 t = embedding_dim e.
Proof.
  unfold embedding_forward. destruct (omap (omap (lookup_row e)) idx); [|discriminate].
  intros Ht. injection Ht as <-. auto.
Qed.

Lemma bidx_lt n i : i < n -> bidx n i = i.
Proof.
  unfold bidx. destruct (Nat.eqb_spec n 1); lia.
Qed.

Lemma nth_seq_lt n i d : i < n -> nth i (seq 0 n) d = i.
Proof.
  intros Hi. rewrite seq_nth by exact Hi. reflexivity.
Qed.

Section AddSame.
Context {A : Type} `{Num A}.

(** [x + y] of two tensors of one shape: the entrywise sum. *)
Lemma add3_same (x y : T3 A) :
  dim0 x = dim0 y -> dim1 x = dim1 y -> dim2 x = dim2 y ->
  exists z, add3 x y = Some z /\
    dim0 z = dim0 x /\ dim1 z = dim1 x /\ dim2 z = dim2 x /\
    forall i j k, i < dim0 x -> j < dim1 x -> k < dim2 x ->
      get3 nzero z i j k = nadd (get3 nzero x i j k) (get3 nzero y i j k).
Proof.
  intros H0 H1 H2. unfold add3, bdim.
  rewrite <- H0, <- H1, <- H2, !Nat.eqb_refl. cbn.
  eexists. split; [reflexivity|]. cbn [dim0 dim1 dim2].
  split; [reflexivity|]. split; [reflexivity|]. split; [reflexivity|].
  intros i j k Hi Hj Hk. unfold get3 at 1; cbn [rows].
  rewrite (nth_map_lt _ _ _ _ 0) by (rewrite length_seq; exact Hi).
  rewrite (nth_map_lt _ _ _ _ 0) by (rewrite length_seq; exact Hj).
  rewrite (nth_map_lt _ _ _ _ 0) by (rewrite length_seq; exact Hk).
  rewrite !nth_seq_lt by assumption.
  rewrite !bidx_lt by assumption. reflexivity.
Qed.

End AddSame.

Lemma Embed_spec draw embed_type n d_model e :
  Embed draw embed_type n d_model = Some e ->
  embedding_dim e = d_model /\ num_embeddings e = n /\
  (embed_type = "fixed"%string ->
     FixedEmbedding_init n d_model = Some e /\ emb_requires_grad e = false) /\
  (embed_type <> "fixed"%string ->
     e = learned_embedding n d_model (draw n d_model) /\ emb_requires_grad e = true).
Proof.
  unfold Embed. destruct (String.eqb_spec embed_type "fixed") as [Hf|Hf].
  - unfold FixedEmbedding_init. destruct (sinusoid_table n d_model); [|discriminate].
    cbn. intros He. injection He as <-. cbn. repeat split; intros; repeat split; try contradiction; auto.
  - intros He. injection He as <-. cbn. repeat split; intros; repeat split; try contradiction; auto.
Qed.

Lemma add_scalar3_0 (x : T3 R) : add_scalar3 x 0%R = x.
Proof.
  destruct x as [d0 d1 d2 r]. unfold add_scalar3, map3; cbn [dim0 dim1 dim2 rows]. f_equal.
  rewrite <- (map_id r) at 2. apply map_ext. intros a.
  rewrite <- (map_id a) at 2. apply map_ext. intros v.
  rewrite <- (map_id v) at 2. apply map_ext. intros z. cbn. apply Rplus_0_r.
Qed.

Lemma TemporalEmbedding_init_spec draw d_model embed_type freq m :
  TemporalEmbedding_init draw d_model embed_type freq = Some m ->
  Embed draw embed_type hour_size d_model = Some (hour_embed m) /\
  Embed draw embed_type weekday_size d_model = Some (weekday_embed m) /\
  Embed draw embed_type day_size d_model = Some (day_embed m) /\
  Embed draw embed_type month_size d_model = Some (month_embed m) /\
  (String.eqb freq "t" = true ->
     exists e, minute_embed m = Some e /\ Embed draw embed_type minute_size d_model = Some e) /\
  (String.eqb freq "t" = false -> minute_embed m = None).
Proof.
  unfold TemporalEmbedding_init.
  destruct (String.eqb freq "t") eqn:Eft.
  - destruct (Embed draw embed_type minute_size d_model) as [emin|] eqn:Emin; [|discriminate].
    destruct (Embed draw embed_type hour_size d_model) as [eh|] eqn:Eh; [|discriminate].
    destruct (Embed draw embed_type weekday_size d_model) as [ew|] eqn:Ew; [|discriminate].
    destruct (Embed draw embed_type day_size d_model) as [ed|] eqn:Ed; [|discriminate].
    destruct (Embed draw embed_type month_size d_model) as [emo|] eqn:Emo; [|discriminate].
    intros Hm. injection Hm as <-. cbn [minute_embed hour_embed weekday_embed day_embed month_embed].
    repeat split; auto; [|discriminate]. intros _. exists emin. auto.
  - destruct (Embed draw embed_type hour_size d_model) as [eh|] eqn:Eh; [|discriminate].
    destruct (Embed draw embed_type weekday_size d_model) as [ew|] eqn:Ew; [|discriminate].
    destruct (Embed draw embed_type day_size d_model) as [ed|] eqn:Ed; [|discriminate].
    destruct (Embed draw embed_type month_size d_model) as [emo|] eqn:Emo; [|discriminate].
    intros Hm. injection Hm as <-. cbn [minute_embed hour_embed weekday_embed day_embed month_embed].
    repeat split; auto. discriminate.
Qed.

(** The forward pass of [TemporalEmbedding] on an integer input, once the
    five lookups are known. *)
Lemma TemporalEmbedding_forward_sum (m : TemporalEmbedding) (xz : T3 Z)
    (month_x day_x weekday_x hour_x : T3 R) (minute_term : nat -> nat -> nat -> R) :
  let B := dim0 xz in
  let L := dim1 xz in
  let D := embedding_dim (hour_embed m) in
  let col k := map (map (fun v => nth k v 0%Z)) (rows xz) in
  embedding_dim (weekday_embed m) = D ->
  embedding_dim (day_embed m) = D ->
  embedding_dim (month_embed m) = D ->
  match minute_embed m with Some _ => 5 | None => 4 end <= dim2 xz ->
  embedding_forward (month_embed m) B L (col 0) = Some month_x ->
  embedding_forward (day_embed m) B L (col 1) = Some day_x ->
  embedding_forward (weekday_embed m) B L (col 2) = Some weekday_x ->
  embedding_forward (hour_embed m) B L (col 3) = Some hour_x ->
  match minute_embed m with
  | Some e => embedding_dim e = D /\
      exists t, embedding_forward e B L (col 4) = Some t /\ minute_term = get3 0%R t
  | None => minute_term = (fun _ _ _ => 0%R)
  end ->
  exists y, TemporalEmbedding_forward m (map3 IZR xz) = Some y /\
    dim0 y = B /\ dim1 y = L /\ dim2 y = D /\
    forall b t o, b < B -> t < L -> o < D ->
      get3 0%R y b t o =
      (get3 0%R month_x b t o + get3 0%R day_x b t o + get3 0%R weekday_x b t o
       + get3 0%R hour_x b t o + minute_term b t o)%R.
Proof.
  intros B L D col HDw HDd HDmo Hk Hmo Hda Hwe Hho Hmin.
  assert (Hk4 : 4 <= dim2 xz) by (destruct (minute_embed m); lia).
  unfold D in *.
  unfold TemporalEmbedding_forward. rewrite map3_trunc_IZR.
  rewrite (select_last_lt 0%Z 3), (select_last_lt 0%Z 2), (select_last_lt 0%Z 1), (select_last_lt 0%Z 0) by lia.
  cbv beta iota zeta.
  fold B L. fold (col 3) (col 2) (col 1) (col 0).
  rewrite Hho, Hwe, Hda, Hmo.
  apply embedding_forward_dims in Hho as (Hh0 & Hh1 & Hh2).
  apply embedding_forward_dims in Hwe as (Hw0 & Hw1 & Hw2).
  apply embedding_forward_dims in Hda as (Hd0 & Hd1 & Hd2).
  apply embedding_forward_dims in Hmo as (Hm0 & Hm1 & Hm2).
  destruct (add3_same hour_x weekday_x) as (s1 & Hs1 & S0 & S1 & S2 & Hs1e); [congruence..|].
  destruct (add3_same s1 day_x) as (s2 & Hs2 & T0 & T1 & T2 & Hs2e); [congruence..|].
  destruct (add3_same s2 month_x) as (s3 & Hs3 & U0 & U1 & U2 & Hs3e); [congruence..|].
  destruct (minute_embed m) as [e|] eqn:Hme.
  - destruct Hmin as (HDe & t & Ht & ->).
    rewrite (select_last_lt 0%Z 4) by lia. cbv beta iota. fold (col 4). rewrite Ht.
    apply embedding_forward_dims in Ht as (Ht0 & Ht1 & Ht2).
    cbv beta iota. rewrite Hs1, Hs2, Hs3.
    destruct (add3_same s3 t) as (y & Hy & V0 & V1 & V2 & Hye); [congruence..|].
    exists y. split; [exact Hy|].
    split; [congruence|]. split; [congruence|]. split; [congruence|].
    intros b t' o Hb Ht' Ho.
    rewrite Hye by congruence. rewrite Hs3e by congruence. rewrite Hs2e by congruence.
    rewrite Hs1e by congruence. cbn [nadd nzero Num_R]. ring.
  - subst minute_term. cbv beta iota. rewrite Hs1, Hs2, Hs3.
    exists s3. rewrite add_scalar3_0. split; [reflexivity|].
    split; [congruence|]. split; [congruence|]. split; [congruence|].
    intros b t' o Hb Ht' Ho.
    rewrite Hs3e by congruence. rewrite Hs2e by congruence.
    rewrite Hs1e by congruence. cbn [nadd nzero Num_R]. ring.
Qed.

(** ** Patches *)

Lemma length_slide {A} c size step (r : list A) : length (slide c size step r) = c.
Proof.
  revert r. induction c as [|c IH]; intros r; cbn [slide length]; [reflexivity|].
  rewrite IH. reflexivity.
Qed.

Lemma nth_slide {A} c size step (r : list A) j d :
  j < c -> nth j (slide c size step r) d = firstn size (skipn (j * step) r).
Proof.
  revert r j. induction c as [|c IH]; intros r j Hj; [lia|].
  destruct j as [|j]; cbn [slide nth].
  - rewrite Nat.mul_0_l. reflexivity.
  - rewrite IH by lia. rewrite skipn_skipn, Nat.mul_succ_l. reflexivity.
Qed.

Lemma window_in_range n S P j : 1 <= S -> P <= n -> j < (n - P) / S + 1 -> j * S + P <= n.
Proof.
  intros HS HP Hj.
  assert (H1 : j * S <= (n - P) / S * S) by (apply Nat.mul_le_mono_r; lia).
  pose proof (Nat.Div0.mul_div_le (n - P) S) as H2.
  rewrite Nat.mul_comm in H2. lia.
Qed.

Lemma length_window {A} size step (r : list A) j :
  j * step + size <= length r -> length (firstn size (skipn (j * step) r)) = size.
Proof.
  intros H. rewrite length_firstn, length_skipn. lia.
Qed.

(** Consecutive windows share [size - step] elements. *)
Lemma window_overlap {A} size step (r : list A) j :
  step <= size ->
  skipn step (firstn size (skipn (j * step) r)) =
  firstn (size - step) (firstn size (skipn ((j + 1) * step) r)).
Proof.
  intros H. rewrite skipn_firstn_comm, firstn_firstn, skipn_skipn.
  replace (Nat.min (size - step) size) with (size - step) by lia.
  replace ((j + 1) * step) with (step + j * step) by lia. reflexivity.
Qed.

Lemma length_concat_uniform {X} (ls : list (list X)) C :
  Forall (fun l => length l = C) ls -> length (concat ls) = length ls * C.
Proof.
  induction 1 as [|l ls Hl _ IH]; [reflexivity|].
  cbn [concat length]. rewrite length_app, IH, Hl. lia.
Qed.

Lemma nth_concat_uniform {X} (ls : list (list X)) C b c d :
  Forall (fun l => length l = C) ls -> b < length ls -> c < C ->
  nth (b * C + c) (concat ls) d = nth c (nth b ls []) d.
Proof.
  intros HF. revert b. induction HF as [|l ls Hl HF IH]; intros b Hb Hc; cbn [length] in Hb; [lia|].
  destruct b as [|b]; cbn [concat nth].
  - replace (0 * C + c) with c by lia. apply app_nth1. lia.
  - rewrite app_nth2 by (rewrite Nat.mul_succ_l; lia).
    replace (S b * C + c - length l) with (b * C + c) by (rewrite Nat.mul_succ_l; lia).
    apply IH; lia.
Qed.

Lemma patchify_spec m (x : T3 R) :
  1 <= dim1 x -> 1 <= dim2 x -> 1 <= stride m -> patch_len m <= dim2 x + stride m ->
  patchify m x =
  Some (mkT3 (dim0 x * dim1 x) ((dim2 x + stride m - patch_len m) / stride m + 1) (patch_len m)
          (concat (map (map (windows (patch_len m) (stride m)))
             (map (map (fun r => r ++ repeat (last r 0%R) (stride m))) (rows x))))).
Proof.
  intros HC HL HS HP. unfold patchify, replication_pad_right.
  destruct (Nat.eqb_spec (dim1 x) 0) as [E|_]; [lia|].
  destruct (Nat.eqb_spec (dim2 x) 0) as [E|_]; [lia|]. cbn [orb].
  unfold unfold_reshape; cbn [dim0 dim1 dim2 rows].
  destruct (Nat.eqb_spec (stride m) 0) as [E|_]; [lia|].
  destruct (Nat.leb_spec (patch_len m) (dim2 x + stride m)) as [_|E]; [|lia].
  reflexivity.
Qed.

Lemma patchify_none m (x : T3 R) :
  dim1 x = 0 \/ dim2 x = 0 \/ stride m = 0 \/ dim2 x + stride m < patch_len m ->
  patchify m x = None.
Proof.
  intros Hbad. unfold patchify, replication_pad_right.
  destruct (Nat.eqb_spec (dim1 x) 0) as [E|E]; [reflexivity|].
  destruct (Nat.eqb_spec (dim2 x) 0) as [E'|E']; [reflexivity|]. cbn [orb].
  unfold unfold_reshape; cbn [dim0 dim1 dim2 rows].
  destruct (Nat.eqb_spec (stride m) 0) as [_|ES]; [reflexivity|].
  destruct (Nat.leb_spec (patch_len m) (dim2 x + stride m)); [lia|reflexivity].
Qed.

(** An input whose padded length [1 + 1] is shorter than a patch of 3. *)
Definition x_short : T3 R := mkT3 1 1 1 [[[1%R]]].

(** An input with an empty time axis. *)
Definition x_empty_time : T3 R := mkT3 1 1 0 [[[]]].

(** Draws that leave every learned weight empty. *)
Definition empty_draws : Draws :=
  mkDraws (fun _ _ => []) (fun _ _ => []) (fun _ _ => []) (fun _ => []).

Definition no_dropout : DropoutDraw := mkDropoutDraw false (fun _ _ _ => true).

(** An input of one more step than the default [max_len]. *)
Definition x_past_max_len : T3 R :=
  mkT3 1 (max_len_default + 1) 1 [repeat [0%R] (max_len_default + 1)].

(** ** Training leaves the fixed tables alone *)

Lemma run_calls_snd_cons {S I O} (call : S -> I -> O * S) s x xs :
  snd (run_calls call s (x :: xs)) = snd (run_calls call (snd (call s x)) xs).
Proof.
  cbn [run_calls]. destruct (call s x) as [y s1]. cbn [snd].
  destruct (run_calls call s1 xs). reflexivity.
Qed.

Lemma embedding_sgd_frozen lr (e : Embedding R) g :
  emb_requires_grad e = false -> embedding_sgd lr e g = e.
Proof. destruct e; cbn; intros ->; reflexivity. Qed.

Lemma TemporalEmbedding_sgd_frozen lr g t :
  Forall (fun e => emb_requires_grad e = false) (TemporalEmbedding_tables t) ->
  TemporalEmbedding_sgd lr g t = t.
Proof.
  destruct t as [mi h w d mo]. unfold TemporalEmbedding_tables, TemporalEmbedding_sgd; cbn.
  intros HF. apply Forall_app in HF as [Hmi HF].
  inversion HF as [|? ? Hh HF1]; inversion HF1 as [|? ? Hw HF2];
    inversion HF2 as [|? ? Hd HF3]; inversion HF3 as [|? ? Hmo _].
  rewrite !embedding_sgd_frozen by assumption.
  destruct mi as [e|]; [|reflexivity].
  inversion Hmi. rewrite embedding_sgd_frozen by assumption. reflexivity.
Qed.

Lemma TemporalEmbedding_init_fixed_frozen draw d_model freq t :
  TemporalEmbedding_init draw d_model "fixed" freq = Some t ->
  Forall (fun e => emb_requires_grad e = false) (TemporalEmbedding_tables t).
Proof.
  intros Ht.
  assert (Hrg : forall n e, Embed draw "fixed" n d_model = Some e -> emb_requires_grad e = false).
  { intros n e He. exact (proj2 (proj1 (proj2 (proj2 (Embed_spec _ _ _ _ _ He))) eq_refl)). }
  destruct (TemporalEmbedding_init_spec _ _ _ _ _ Ht) as (Hh & Hw & Hd & Hm & Hmin1 & Hmin0).
  unfold TemporalEmbedding_tables.
  destruct (String.eqb freq "t") eqn:Ef.
  - destruct (Hmin1 eq_refl) as (e & He & HE). rewrite He.
    repeat constructor; eauto.
  - rewrite (Hmin0 eq_refl). repeat constructor; eauto.
Qed.

Lemma DataEmbedding_run_frozen torch_ge_1_5 (m : DataEmbedding) evs t :
  de_temporal_embedding m = TM_Temporal t ->
  Forall (fun e => emb_requires_grad e = false) (TemporalEmbedding_tables t) ->
  de_position_embedding (snd (run_calls (DataEmbedding_event_call torch_ge_1_5) m evs)) =
    de_position_embedding m /\
  de_temporal_embedding (snd (run_calls (DataEmbedding_event_call torch_ge_1_5) m evs)) =
    de_temporal_embedding m.
Proof.
  intros Hm Hf. revert m Hm. induction evs as [|ev evs IH]; intros m Hm; [split; reflexivity|].
  rewrite run_calls_snd_cons. destruct ev as [dd x xm|lr g]; cbn [DataEmbedding_event_call snd].
  - apply IH, Hm.
  - assert (Ht : de_temporal_embedding (DataEmbedding_sgd lr g m) = TM_Temporal t).
    { unfold DataEmbedding_sgd; cbn [de_temporal_embedding]. rewrite Hm. cbn [TemporalModule_sgd].
      rewrite TemporalEmbedding_sgd_frozen by exact Hf. reflexivity. }
    destruct (IH _ Ht) as [IH1 IH2]. rewrite IH1, IH2, Ht, Hm. split; reflexivity.
Qed.

Lemma FixedEmbedding_run_frozen (e : FixedEmbedding) evs :
  emb_requires_grad e = false ->
  run_calls FixedEmbedding_event_call e evs =
  (map (fun ev => match ev with
                  | FE_lookup (B, L, idx) => Some (embedding_forward e B L idx)
                  | FE_step _ _ => None
                  end) evs, e).
Proof.
  intros Hf. induction evs as [|ev evs IH]; [reflexivity|].
  destruct ev as [[[B L] idx]|lr g]; cbn [run_calls FixedEmbedding_event_call FixedEmbedding_call map].
  - rewrite IH. reflexivity.
  - rewrite embedding_sgd_frozen by exact Hf. rewrite IH. reflexivity.
Qed.

(** * Claims *)

(** C8: with [x_mark = None] every top-level variant drops the mark term:
    [DataEmbedding] returns [dropout(value(x) + position(x))],
    [DataEmbedding_wo_pos] returns [dropout(value(x))] and
    [DataEmbedding_inverted] returns [dropout(linear(x.permute(0, 2, 1)))],
    with no concatenation of marks. *)
Theorem C8_none_mark_omits_marks (torch_ge_1_5 : bool) :
  (forall m dd x,
      DataEmbedding_forward torch_ge_1_5 m dd x None =
      (let* v := TokenEmbedding_forward torch_ge_1_5 (de_value_embedding m) x in
       let* s := add3 v (PositionalEmbedding_forward (de_position_embedding m) x) in
       Some (apply_dropout (de_dropout m) dd s))) /\
  (forall m dd x,
      DataEmbedding_wo_pos_forward torch_ge_1_5 m dd x None =
      option_map (apply_dropout (dw_dropout m) dd)
        (TokenEmbedding_forward torch_ge_1_5 (dw_value_embedding m) x)) /\
  (forall m dd x,
      DataEmbedding_inverted_forward m dd x None =
      option_map (apply_dropout (di_dropout m) dd)
        (Linear_forward (di_value_embedding m) (permute021 x))).
Proof.
  split; [|split]; intros m dd x; [reflexivity| |]; simpl; unfold option_map.
  - destruct (TokenEmbedding_forward _ _ _); reflexivity.
  - destruct (Linear_forward _ _); reflexivity.
Qed.

(** C1: a constructed [DataEmbedding] holds a [TimeFeatureEmbedding] when
    [embed_type == 'timeF'] and a [TemporalEmbedding] otherwise, and with a
    mark its [forward] is dropout applied to
    [TokenEmbedding(x) + temporal(x_mark) + PositionalEmbedding(x)]. *)
Theorem C1_data_embedding_composition (torch_ge_1_5 : bool) (g : Draws)
    (c_in d_model : nat) (embed_type freq : string) (p : R) :
  match DataEmbedding_init torch_ge_1_5 g c_in d_model embed_type freq p with
  | Some m =>
      (if String.eqb embed_type "timeF"
       then exists t, de_temporal_embedding m = TM_TimeFeature t /\
                      TimeFeatureEmbedding_init d_model freq (draw_linear g) = Some t
       else exists t, de_temporal_embedding m = TM_Temporal t /\
                      TemporalEmbedding_init (draw_table g) d_model embed_type freq = Some t) /\
      de_value_embedding m = TokenEmbedding_init torch_ge_1_5 c_in d_model (draw_conv g c_in d_model) /\
      PositionalEmbedding_init d_model max_len_default = Some (de_position_embedding m) /\
      de_dropout m = p /\
      (forall dd x x_mark,
         DataEmbedding_forward torch_ge_1_5 m dd x (Some x_mark) =
         (let* v := TokenEmbedding_forward torch_ge_1_5 (de_value_embedding m) x in
          let* t := TemporalModule_forward (de_temporal_embedding m) x_mark in
          let* s1 := add3 v t in
          let* s := add3 s1 (PositionalEmbedding_forward (de_position_embedding m) x) in
          Some (apply_dropout (de_dropout m) dd s)))
  | None => True
  end.
Proof.
  unfold DataEmbedding_init, TemporalModule_init.
  destruct (PositionalEmbedding_init d_model max_len_default) as [pos|] eqn:Hpos; [|exact I].
  destruct (String.eqb embed_type "timeF") eqn:Ht; simpl.
  - destruct (TimeFeatureEmbedding_init d_model freq (draw_linear g)) as [t|] eqn:Hi; [|exact I].
    simpl. split; [eexists; split; reflexivity|].
    split; [reflexivity|]. split; [reflexivity|]. split; [reflexivity|].
    intros; reflexivity.
  - destruct (TemporalEmbedding_init (draw_table g) d_model embed_type freq) as [t|] eqn:Hi;
      [|exact I].
    simpl. split; [eexists; split; reflexivity|].
    split; [reflexivity|]. split; [reflexivity|]. split; [reflexivity|].
    intros; reflexivity.
Qed.

(** C6: the positional table and the fixed calendar tables are fixed.
    Calling [PositionalEmbedding.forward] any number of times leaves the
    module as it was, each call returning the first [x.shape[1]] rows of
    [pe]. A [FixedEmbedding] (built with [requires_grad=False]) stays the
    same through any sequence of lookups and SGD steps, each lookup reading
    the initial table. In a [DataEmbedding] built with [embed_type='fixed'],
    any sequence of forward calls and SGD steps on [model.parameters()]
    leaves [pe] (a buffer) and every calendar table unchanged, so calls with
    the same sequence length give the same positional term before and after
    training; by contrast, a learned [nn.Embedding] table does move under
    such a step. *)
Theorem C6_tables_unchanged_by_forward :
  (forall (m : PositionalEmbedding) (xs : list (T3 R)),
      run_calls PositionalEmbedding_call m xs =
      (map (fun x => slice1 (dim1 x) (pe m)) xs, m)) /\
  (forall c_in d_model (e : FixedEmbedding) (evs : list FixedEmbedding_event),
      FixedEmbedding_init c_in d_model = Some e ->
      emb_requires_grad e = false /\
      run_calls FixedEmbedding_event_call e evs =
      (map (fun ev => match ev with
                      | FE_lookup (B, L, idx) => Some (embedding_forward e B L idx)
                      | FE_step _ _ => None
                      end) evs, e)) /\
  (forall torch_ge_1_5 g c_in d_model freq p (m : DataEmbedding) (evs : list DataEmbedding_event),
      DataEmbedding_init torch_ge_1_5 g c_in d_model "fixed" freq p = Some m ->
      let m' := snd (run_calls (DataEmbedding_event_call torch_ge_1_5) m evs) in
      de_position_embedding m' = de_position_embedding m /\
      de_temporal_embedding m' = de_temporal_embedding m /\
      (forall x1 x2 : T3 R, dim1 x1 = dim1 x2 ->
         PositionalEmbedding_forward (de_position_embedding m') x1 =
         PositionalEmbedding_forward (de_position_embedding m) x2)) /\
  (forall lr n d w g,
      emb_weight (embedding_sgd lr (learned_embedding n d w) g) =
      zipWith (zipWith (fun a b => a - lr * b)%R) w g).
Proof.
  split; [|split; [|split]].
  - intros m xs; induction xs as [|x xs IH]; simpl; [reflexivity|].
    rewrite IH; reflexivity.
  - intros c_in d_model e evs He.
    assert (Hf : emb_requires_grad e = false).
    { unfold FixedEmbedding_init in He. destruct (sinusoid_table c_in d_model); [|discriminate].
      injection He as <-. reflexivity. }
    split; [exact Hf|]. apply FixedEmbedding_run_frozen, Hf.
  - intros torch_ge_1_5 g c_in d_model freq p m evs Hm m'.
    unfold DataEmbedding_init in Hm.
    destruct (PositionalEmbedding_init d_model max_len_default) as [pos|]; [|discriminate].
    unfold TemporalModule_init in Hm. cbn [String.eqb negb Ascii.eqb Bool.eqb andb] in Hm.
    destruct (TemporalEmbedding_init (draw_table g) d_model "fixed" freq) as [t|] eqn:Ht;
      [|discriminate].
    injection Hm as <-.
    destruct (DataEmbedding_run_frozen torch_ge_1_5
                (mkDataEmbedding (TokenEmbedding_init torch_ge_1_5 c_in d_model (draw_conv g c_in d_model))
                   pos (TM_Temporal t) p) evs t eq_refl
                (TemporalEmbedding_init_fixed_frozen _ _ _ _ Ht)) as [H1 H2].
    fold m' in H1, H2. split; [exact H1|]. split; [exact H2|].
    intros x1 x2 Hx. unfold PositionalEmbedding_forward. rewrite H1, Hx. reflexivity.
  - intros lr n d w g. reflexivity.
Qed.

Lemma C6_witness :
  (exists e, FixedEmbedding_init 3 2 = Some e /\
     snd (run_calls FixedEmbedding_event_call e
            [FE_step 1%R [[1; 1]; [1; 1]; [1; 1]]%R; FE_lookup (1, 1, [[2%Z]])]) = e) /\
  (exists m, DataEmbedding_init true empty_draws 1 2 "fixed" "h" 0%R = Some m /\
     de_temporal_embedding
       (snd (run_calls (DataEmbedding_event_call true) m
               [DE_step 1%R (mkDataEmbedding_grads [[[1; 1; 1]]; [[1; 1; 1]]]
                               (mkTemporalGrads [] [[1; 1]] [[1; 1]] [[1; 1]] [[1; 1]]) [])%R])) =
     de_temporal_embedding m).
Proof.
  split.
  - destruct (sinusoid_table_even 3 2 eq_refl ltac:(lia)) as (w & Hw & _).
    assert (He : FixedEmbedding_init 3 2 = Some (mkEmbedding 3 2 w false))
      by (unfold FixedEmbedding_init; rewrite Hw; reflexivity).
    exists (mkEmbedding 3 2 w false). split; [exact He|].
    destruct (proj1 (proj2 C6_tables_unchanged_by_forward) 3 2 _
                [FE_step 1%R [[1; 1]; [1; 1]; [1; 1]]%R; FE_lookup (1, 1, [[2%Z]])] He) as [_ Hr].
    rewrite Hr. reflexivity.
  - destruct (PositionalEmbedding_init_spec 2 max_len_default ltac:(lia)) as (pm & Hpm & _).
    destruct (sinusoid_table_even hour_size 2 eq_refl ltac:(lia)) as (w1 & H1 & _).
    destruct (sinusoid_table_even weekday_size 2 eq_refl ltac:(lia)) as (w2 & H2 & _).
    destruct (sinusoid_table_even day_size 2 eq_refl ltac:(lia)) as (w3 & H3 & _).
    destruct (sinusoid_table_even month_size 2 eq_refl ltac:(lia)) as (w4 & H4 & _).
    assert (Hm : exists m, DataEmbedding_init true empty_draws 1 2 "fixed" "h" 0%R = Some m).
    { eexists. unfold DataEmbedding_init, TemporalModule_init, TemporalEmbedding_init, Embed,
        FixedEmbedding_init.
      rewrite Hpm, H1, H2, H3, H4. reflexivity. }
    destruct Hm as [m Hm]. exists m. split; [exact Hm|].
    exact (proj1 (proj2 (proj1 (proj2 (proj2 C6_tables_unchanged_by_forward))
             true empty_draws 1 2 "h"%string 0%R m _ Hm))).
Defined.

(** C10: the output of [PositionalEmbedding.forward] depends only on
    [x.shape[1]]: two inputs with the same sequence length (at most
    [max_len]) give the same output, of leading size 1 whatever the batch
    size, which is the first [x.shape[1]] rows of the table and not a sum
    with [x]. *)
Theorem C10_positional_depends_on_length_only (d_model max_len : nat)
    (m : PositionalEmbedding) (x1 x2 : T3 R)
    (Hinit : PositionalEmbedding_init d_model max_len = Some m)
    (Hlen : dim1 x1 = dim1 x2) (Hle : dim1 x1 <= max_len) :
  PositionalEmbedding_forward m x1 = PositionalEmbedding_forward m x2 /\
  dim0 (PositionalEmbedding_forward m x1) = 1 /\
  rows (PositionalEmbedding_forward m x1) = map (firstn (dim1 x1)) (rows (pe m)).
Proof.
  unfold PositionalEmbedding_forward, slice1; simpl.
  rewrite Hlen; repeat split.
  apply (PositionalEmbedding_init_dim0 d_model max_len m Hinit).
Qed.

Lemma C10_witness :
  exists m, PositionalEmbedding_init 2 1 = Some m /\
    dim1 (mkT3 2 1 1 [[[1%R]]; [[2%R]]]) = dim1 (mkT3 3 1 1 [[[5%R]]; [[6%R]]; [[7%R]]]) /\
    PositionalEmbedding_forward m (mkT3 2 1 1 [[[1%R]]; [[2%R]]]) =
    PositionalEmbedding_forward m (mkT3 3 1 1 [[[5%R]]; [[6%R]]; [[7%R]]]).
Proof.
  eexists. split; [reflexivity|]. split; [reflexivity|].
  apply (C10_positional_depends_on_length_only 2 1); [reflexivity|reflexivity|simpl; lia].
Defined.

(** C3 (amended): [PositionalEmbedding(d_model, max_len)] raises
    [ZeroDivisionError] for [d_model = 0]. For [d_model >= 1], with [d] the
    even rounding up of [d_model], it stores a table [pe] of shape
    [1, max_len, d_model] with [pe[0, p, 2i] = sin(p * exp(-2i ln(10000) / d))]
    and [pe[0, p, 2i + 1] = cos(p * exp(-2i ln(10000) / d))], and [forward(x)]
    is [pe[:, :x.shape[1]]], of shape [1, min(x.shape[1], max_len), d_model]. *)
Theorem C3_positional_table (d_model max_len : nat) :
  (d_model = 0 -> PositionalEmbedding_init d_model max_len = None) /\
  (1 <= d_model ->
   let d := if d_model mod 2 =? 0 then d_model else d_model + 1 in
   exists m, PositionalEmbedding_init d_model max_len = Some m /\
     dim0 (pe m) = 1 /\ dim1 (pe m) = max_len /\ dim2 (pe m) = d_model /\ wf3 (pe m) /\
     (forall p i, p < max_len -> 2 * i < d_model ->
        get3 0%R (pe m) 0 p (2 * i) = sin (INR p * exp (- INR (2 * i) * ln 10000 / INR d))) /\
     (forall p i, p < max_len -> 2 * i + 1 < d_model ->
        get3 0%R (pe m) 0 p (2 * i + 1) = cos (INR p * exp (- INR (2 * i) * ln 10000 / INR d))) /\
     (forall X (x : T3 X),
        PositionalEmbedding_forward m x = slice1 (dim1 x) (pe m) /\
        dim0 (PositionalEmbedding_forward m x) = 1 /\
        dim1 (PositionalEmbedding_forward m x) = Nat.min (dim1 x) max_len /\
        dim2 (PositionalEmbedding_forward m x) = d_model)).
Proof.
  split.
  - intros ->. reflexivity.
  - intros H1 d.
    destruct (PositionalEmbedding_init_spec d_model max_len H1)
      as (m & Hm & H0 & Hd1 & Hd2 & Hwf & Hsin & Hcos).
    exists m. split; [exact Hm|]. split; [exact H0|]. split; [exact Hd1|].
    split; [exact Hd2|]. split; [exact Hwf|]. split; [exact Hsin|]. split; [exact Hcos|].
    intros X x. unfold PositionalEmbedding_forward, slice1; cbn [dim0 dim1 dim2].
    rewrite H0, Hd1, Hd2. repeat split.
Qed.

Lemma C3_witness :
  1 <= 2 /\ exists m, PositionalEmbedding_init 2 3 = Some m /\ dim1 (pe m) = 3.
Proof.
  split; [lia|].
  destruct (proj2 (C3_positional_table 2 3) ltac:(lia)) as (m & Hm & _ & Hd1 & _).
  exists m. split; [exact Hm|exact Hd1].
Defined.

(** C3 fails as stated: [PositionalEmbedding(0)] raises, and for an input
    longer than [max_len] the output has [max_len] rows, not
    [x.shape[1]]. *)
Lemma C3_counterexample :
  PositionalEmbedding_init 0 max_len_default = None /\
  exists m, PositionalEmbedding_init 2 max_len_default = Some m /\
    dim1 (PositionalEmbedding_forward m x_past_max_len) = max_len_default /\
    dim1 (PositionalEmbedding_forward m x_past_max_len) <> dim1 x_past_max_len.
Proof.
  split; [reflexivity|].
  destruct (PositionalEmbedding_init_spec 2 max_len_default) as (m & Hm & _ & Hd1 & _); [lia|].
  exists m. split; [exact Hm|].
  unfold PositionalEmbedding_forward, slice1, x_past_max_len; cbn [dim1].
  rewrite Hd1, Nat.min_r by lia. split; [reflexivity|lia].
Qed.

(** C9 (amended): [FixedEmbedding(c_in, d_model)] raises for every odd
    [d_model >= 3], and so does [TemporalEmbedding] with
    [embed_type == 'fixed']; it succeeds for [d_model = 1], where the single
    cosine column broadcasts onto the empty slice [w[:, 1::2]], and for
    every even [d_model >= 2]; [PositionalEmbedding] succeeds for every odd
    [d_model]. *)
Theorem C9_fixed_embedding_parity :
  (forall c_in d_model, d_model mod 2 = 1 -> 3 <= d_model ->
     FixedEmbedding_init c_in d_model = None) /\
  (forall draw d_model freq, d_model mod 2 = 1 -> 3 <= d_model ->
     TemporalEmbedding_init draw d_model "fixed" freq = None) /\
  (forall c_in, FixedEmbedding_init c_in 1 <> None) /\
  (forall c_in d_model, d_model mod 2 = 0 -> 2 <= d_model ->
     FixedEmbedding_init c_in d_model <> None) /\
  (forall d_model max_len, d_model mod 2 = 1 ->
     PositionalEmbedding_init d_model max_len <> None).
Proof.
  assert (Hodd : forall c_in d_model, d_model mod 2 = 1 -> 3 <= d_model ->
                   FixedEmbedding_init c_in d_model = None).
  { intros c_in d_model H1 H3. unfold FixedEmbedding_init.
    rewrite sinusoid_table_odd_none by assumption. reflexivity. }
  split; [exact Hodd|]. split; [|split; [|split]].
  - intros draw d_model freq H1 H3. unfold TemporalEmbedding_init, Embed.
    rewrite !(Hodd _ d_model H1 H3).
    destruct (String.eqb freq "t"); reflexivity.
  - intros c_in. unfold FixedEmbedding_init.
    destruct (sinusoid_table_one c_in) as [w Hw]. rewrite Hw. discriminate.
  - intros c_in d_model H0 H2. unfold FixedEmbedding_init.
    destruct (sinusoid_table_even c_in d_model H0 H2) as (w & Hw & _). rewrite Hw. discriminate.
  - intros d_model max_len H1.
    destruct (PositionalEmbedding_init_spec d_model max_len) as (m & Hm & _).
    + destruct d_model; [discriminate|lia].
    + rewrite Hm. discriminate.
Qed.

Lemma C9_witness : 3 mod 2 = 1 /\ 3 <= 3 /\ FixedEmbedding_init minute_size 3 = None.
Proof.
  split; [reflexivity|]. split; [lia|].
  apply (proj1 C9_fixed_embedding_parity); [reflexivity|lia].
Defined.

(** C9 fails as stated: [FixedEmbedding(c_in, 1)] is built (odd [d_model]),
    and so is [TemporalEmbedding(1, 'fixed', 'h')]. *)
Lemma C9_counterexample :
  FixedEmbedding_init minute_size 1 <> None /\
  TemporalEmbedding_init (fun _ _ => []) 1 "fixed" "h" <> None.
Proof.
  split.
  - unfold FixedEmbedding_init. destruct (sinusoid_table_one minute_size) as [w Hw].
    rewrite Hw. discriminate.
  - unfold TemporalEmbedding_init, Embed, FixedEmbedding_init.
    destruct (sinusoid_table_one hour_size) as [w1 H1].
    destruct (sinusoid_table_one weekday_size) as [w2 H2].
    destruct (sinusoid_table_one day_size) as [w3 H3].
    destruct (sinusoid_table_one month_size) as [w4 H4].
    cbn [String.eqb Ascii.eqb Bool.eqb].
    rewrite H1, H2, H3, H4. discriminate.
Qed.

(** C7: [TimeFeatureEmbedding(d_model, freq=freq)] is a bias-free linear
    layer whose input size is [freq_map[freq]] ([h->4, t->5, s->6, m->1,
    a->1, w->2, d->3, b->3]); its [forward] maps [a*x + b*y] to
    [a*forward(x) + b*forward(y)] for inputs of that last dimension, and the
    zero tensor to a zero tensor. *)
Theorem C7_time_feature_linear (d_model : nat) (freq : string)
    (draw : nat -> nat -> list (list R)) (m : TimeFeatureEmbedding)
    (Hinit : TimeFeatureEmbedding_init d_model freq draw = Some m) :
  map (fun f => lookup_str f freq_map) ["h"; "t"; "s"; "m"; "a"; "w"; "d"; "b"]%string =
    map Some [4; 5; 6; 1; 1; 2; 3; 3] /\
  lookup_str freq freq_map = Some (in_features m) /\
  lin_bias m = None /\
  (forall (a b : R) (x y : T3 R),
     wf3 x -> wf3 y -> dim0 x = dim0 y -> dim1 x = dim1 y -> dim2 x = dim2 y ->
     dim2 x = in_features m ->
     exists u v, TimeFeatureEmbedding_forward m x = Some u /\
                 TimeFeatureEmbedding_forward m y = Some v /\
                 TimeFeatureEmbedding_forward m (lincomb3 a b x y) = Some (lincomb3 a b u v)) /\
  (forall B L, exists u,
     TimeFeatureEmbedding_forward m (zeros3 B L (in_features m)) = Some u /\
     Forall (Forall (Forall (fun v => v = 0%R))) (rows u)).
Proof.
  unfold TimeFeatureEmbedding_init in Hinit.
  destruct (lookup_str freq freq_map) as [d_inp|] eqn:Hf; [|discriminate].
  injection Hinit as <-. cbn [in_features lin_bias].
  split; [reflexivity|]. split; [reflexivity|]. split; [reflexivity|]. split.
  - intros a b x y [Hx0 Hx] [Hy0 Hy] H0 H1 H2 Hin.
    unfold TimeFeatureEmbedding_forward, Linear_forward, lincomb3; cbn [dim2 in_features].
    rewrite <- H2, Hin, Nat.eqb_refl.
    do 2 eexists. split; [reflexivity|]. split; [reflexivity|].
    cbn [dim0 dim1 dim2 rows out_features]. do 3 f_equal.
    apply map_zipWith_Forall2.
    eapply Forall2_of_Forall; [|exact Hx|exact Hy|]; [congruence|].
    intros r1 r2 [Hr1 Hv1] [Hr2 Hv2].
    apply map_zipWith_Forall2.
    eapply Forall2_of_Forall; [|exact Hv1|exact Hv2|]; [congruence|].
    intros v1 v2 Hl1 Hl2. apply linear_vec_lincomb; [reflexivity|congruence].
  - intros B L. unfold TimeFeatureEmbedding_forward, Linear_forward, zeros3; cbn [dim2 in_features].
    rewrite Nat.eqb_refl. eexists. split; [reflexivity|]. cbn [rows].
    rewrite !map_repeat. apply Forall_forall. intros r Hr.
    apply repeat_spec in Hr. subst r. apply Forall_forall. intros v Hv.
    apply repeat_spec in Hv. subst v. apply Forall_forall. intros z Hz.
    unfold linear_vec in Hz. cbn [lin_bias lin_weight] in Hz.
    apply in_map_iff in Hz. destruct Hz as (w & <- & _). apply dot_zeros.
Qed.

Lemma C7_witness :
  exists m, TimeFeatureEmbedding_init 1 "h" (fun i o => repeat (repeat 1%R i) o) = Some m /\
    lookup_str "h" freq_map = Some (in_features m).
Proof.
  eexists. split; [reflexivity|].
  apply (C7_time_feature_linear 1 "h" (fun i o => repeat (repeat 1%R i) o)). reflexivity.
Defined.




(** C4: a [TemporalEmbedding] built with [d_model], [embed_type] and
    [freq] has tables of sizes minute 4, hour 24, weekday 7, day 32 and
    month 13, each [Embed(n, d_model)]: with [embed_type = 'fixed'] a
    sinusoidal [FixedEmbedding] with [requires_grad = False], otherwise a
    learned [nn.Embedding]; the minute table exists exactly when
    [freq = 't']. On an integer-valued input [x] of shape [B, L, K],
    [forward] raises when [K < 5] (with a minute table) or [K < 4]
    (without), and otherwise returns, entry by entry,
    [month_embed(x[:,:,0]) + day_embed(x[:,:,1]) + weekday_embed(x[:,:,2])
    + hour_embed(x[:,:,3])] plus [minute_embed(x[:,:,4])] with a minute
    table and plus [0] without, of shape [B, L, d_model]. *)
Theorem C4_temporal_embedding_sum (draw : nat -> nat -> list (list R)) (d_model : nat)
    (embed_type freq : string) (m : TemporalEmbedding)
    (Hinit : TemporalEmbedding_init draw d_model embed_type freq = Some m) :
  minute_size = 4 /\ hour_size = 24 /\ weekday_size = 7 /\ day_size = 32 /\ month_size = 13 /\
  Embed draw embed_type hour_size d_model = Some (hour_embed m) /\
  Embed draw embed_type weekday_size d_model = Some (weekday_embed m) /\
  Embed draw embed_type day_size d_model = Some (day_embed m) /\
  Embed draw embed_type month_size d_model = Some (month_embed m) /\
  (freq = "t"%string ->
     exists e, minute_embed m = Some e /\ Embed draw embed_type minute_size d_model = Some e) /\
  (freq <> "t"%string -> minute_embed m = None) /\
  (forall n e, Embed draw embed_type n d_model = Some e ->
     embedding_dim e = d_model /\ num_embeddings e = n /\
     (embed_type = "fixed"%string ->
        FixedEmbedding_init n d_model = Some e /\ emb_requires_grad e = false) /\
     (embed_type <> "fixed"%string ->
        e = learned_embedding n d_model (draw n d_model) /\ emb_requires_grad e = true)) /\
  (forall xz : T3 Z, dim2 xz < (if String.eqb freq "t" then 5 else 4) ->
     TemporalEmbedding_forward m (map3 IZR xz) = None) /\
  (forall (xz : T3 Z) (month_x day_x weekday_x hour_x : T3 R)
          (minute_term : nat -> nat -> nat -> R),
     let B := dim0 xz in
     let L := dim1 xz in
     let col k := map (map (fun v => nth k v 0%Z)) (rows xz) in
     (if String.eqb freq "t" then 5 else 4) <= dim2 xz ->
     embedding_forward (month_embed m) B L (col 0) = Some month_x ->
     embedding_forward (day_embed m) B L (col 1) = Some day_x ->
     embedding_forward (weekday_embed m) B L (col 2) = Some weekday_x ->
     embedding_forward (hour_embed m) B L (col 3) = Some hour_x ->
     match minute_embed m with
     | Some e => exists t, embedding_forward e B L (col 4) = Some t /\ minute_term = get3 0%R t
     | None => minute_term = (fun _ _ _ => 0%R)
     end ->
     exists y, TemporalEmbedding_forward m (map3 IZR xz) = Some y /\
       dim0 y = B /\ dim1 y = L /\ dim2 y = d_model /\
       forall b t o, b < B -> t < L -> o < d_model ->
         get3 0%R y b t o =
         (get3 0%R month_x b t o + get3 0%R day_x b t o + get3 0%R weekday_x b t o
          + get3 0%R hour_x b t o + minute_term b t o)%R).
Proof.
  destruct (TemporalEmbedding_init_spec draw d_model embed_type freq m Hinit)
    as (Eh & Ew & Ed & Emo & Emin & Enone).
  pose proof (Embed_spec draw embed_type hour_size d_model _ Eh) as (Dh & _).
  pose proof (Embed_spec draw embed_type weekday_size d_model _ Ew) as (Dw & _).
  pose proof (Embed_spec draw embed_type day_size d_model _ Ed) as (Dd & _).
  pose proof (Embed_spec draw embed_type month_size d_model _ Emo) as (Dmo & _).
  assert (Hneed : (if String.eqb freq "t" then 5 else 4) =
                  match minute_embed m with Some _ => 5 | None => 4 end).
  { destruct (String.eqb freq "t") eqn:Eft.
    - destruct (Emin eq_refl) as (e & -> & _). reflexivity.
    - rewrite (Enone eq_refl). reflexivity. }
  do 5 (split; [reflexivity|]).
  split; [exact Eh|]. split; [exact Ew|]. split; [exact Ed|]. split; [exact Emo|].
  split; [intros ->; apply Emin; reflexivity|].
  split; [intros Hf; apply Enone; apply String.eqb_neq, Hf|].
  split; [intros n e; exact (Embed_spec draw embed_type n d_model e)|].
  split.
  - intros xz Hk. rewrite Hneed in Hk.
    unfold TemporalEmbedding_forward. rewrite map3_trunc_IZR. cbv zeta.
    destruct (minute_embed m) as [e|].
    + rewrite (select_last_ge 0%Z 4) by lia. reflexivity.
    + rewrite (select_last_ge 0%Z 3) by lia. reflexivity.
  - intros xz month_x day_x weekday_x hour_x minute_term B L col Hk Hmo Hda Hwe Hho Hmin.
    rewrite Hneed in Hk.
    destruct (TemporalEmbedding_forward_sum m xz month_x day_x weekday_x hour_x minute_term)
      as (y & Hy & Y0 & Y1 & Y2 & Hye); [congruence..|exact Hk|exact Hmo|exact Hda|exact Hwe|exact Hho| |].
    + destruct (minute_embed m) as [e|] eqn:Hme; [|exact Hmin].
      split; [|exact Hmin].
      destruct (String.eqb freq "t") eqn:Eft.
      * destruct (Emin eq_refl) as (e' & He' & Ee'). injection He' as <-.
        destruct (Embed_spec draw embed_type minute_size d_model _ Ee') as (De & _). congruence.
      * rewrite (Enone eq_refl) in Hme. discriminate.
    + exists y. split; [exact Hy|]. split; [exact Y0|]. split; [exact Y1|].
      split; [congruence|]. intros b t o Hb Ht Ho. apply Hye; [exact Hb|exact Ht|rewrite Dh; exact Ho].
Qed.

(** The table used by the witness: every row is [[1]]. *)
Lemma C4_witness :
  exists m y,
    TemporalEmbedding_init (fun n _ => repeat [1%R] n) 1 "learned" "h" = Some m /\
    TemporalEmbedding_forward m (map3 IZR (mkT3 1 1 4 [[[1; 2; 3; 4]]]%Z)) = Some y /\
    get3 0%R y 0 0 0 = 4%R.
Proof.
  set (draw := fun n (_ : nat) => repeat [1%R] n).
  set (m := mkTemporalEmbedding None
              (learned_embedding 24 1 (draw 24 1)) (learned_embedding 7 1 (draw 7 1))
              (learned_embedding 32 1 (draw 32 1)) (learned_embedding 13 1 (draw 13 1))).
  assert (Hinit : TemporalEmbedding_init draw 1 "learned" "h" = Some m) by reflexivity.
  set (one := mkT3 1 1 1 [[[1%R]]]).
  destruct (proj2 (proj2 (proj2 (proj2 (proj2 (proj2 (proj2 (proj2 (proj2 (proj2 (proj2 (proj2 (proj2
    (C4_temporal_embedding_sum draw 1 "learned" "h" m Hinit)))))))))))))
    (mkT3 1 1 4 [[[1; 2; 3; 4]]]%Z) one one one one (fun _ _ _ => 0%R))
    as (y & Hy & _ & _ & _ & Hye); try reflexivity.
  exists m, y. split; [exact Hinit|]. split; [exact Hy|].
  rewrite Hye by (cbn; lia). cbn. lra.
Defined.

(** C2 (amended): [PatchEmbedding.forward] on [x] of shape [B, C, L]
    raises when [C = 0], [L = 0], [stride = 0] or [patch_len > L + stride].
    Otherwise it pads each row [x[b, c]] on the right with [stride] copies
    of its last element, takes the [n = (L + stride - patch_len) / stride + 1]
    windows [padded[j * stride : j * stride + patch_len]], each of exactly
    [patch_len] elements and overlapping the next one in
    [patch_len - stride] elements when [stride < patch_len], lays them out
    as a tensor of shape [B * C, n, patch_len] with the windows of
    [x[b, c]] at index [b * C + c], embeds this tensor as
    [dropout(TokenEmbedding + PositionalEmbedding)] and returns [C] as its
    second output. *)
Theorem C2_patch_embedding_windows (torch_ge_1_5 : bool) (m : PatchEmbedding) (dd : DropoutDraw)
    (x : T3 R) (Hx : wf3 x) :
  let B := dim0 x in
  let C := dim1 x in
  let L := dim2 x in
  let P := patch_len m in
  let S := stride m in
  let n := (L + S - P) / S + 1 in
  let padded b c := (let r := nth c (nth b (rows x) []) [] in r ++ repeat (last r 0%R) S) in
  ((C = 0 \/ L = 0 \/ S = 0 \/ L + S < P) ->
     PatchEmbedding_forward torch_ge_1_5 m dd x = None) /\
  (1 <= C -> 1 <= L -> 1 <= S -> P <= L + S ->
   exists xw, patchify m x = Some xw /\
     dim0 xw = B * C /\ dim1 xw = n /\ dim2 xw = P /\ length (rows xw) = B * C /\
     (forall b c j, b < B -> c < C -> j < n ->
        length (nth (b * C + c) (rows xw) []) = n /\
        nth j (nth (b * C + c) (rows xw) []) [] = firstn P (skipn (j * S) (padded b c)) /\
        length (nth j (nth (b * C + c) (rows xw) []) []) = P /\
        (S < P -> j + 1 < n ->
           skipn S (nth j (nth (b * C + c) (rows xw) []) []) =
           firstn (P - S) (nth (j + 1) (nth (b * C + c) (rows xw) []) []))) /\
     PatchEmbedding_forward torch_ge_1_5 m dd x =
       (let* ve := TokenEmbedding_forward torch_ge_1_5 (pa_value_embedding m) xw in
        let* s := add3 ve (PositionalEmbedding_forward (pa_position_embedding m) xw) in
        Some (apply_dropout (pa_dropout m) dd s, C))).
Proof.
  intros B C L P S n padded. split.
  - intros Hbad. unfold PatchEmbedding_forward. rewrite patchify_none by exact Hbad. reflexivity.
  - intros HC HL HS HP.
    destruct Hx as [Hlen Hrows]. rewrite Forall_nth in Hrows.
    set (pad := fun r : list R => r ++ repeat (last r 0%R) S).
    set (win := @windows R P S).
    set (ls := map (map win) (map (map pad) (rows x))).
    assert (HF : Forall (fun l => length l = C) ls).
    { unfold ls. apply Forall_map, Forall_map. rewrite Forall_nth. intros i d Hi.
      rewrite !length_map. apply (Hrows i d Hi). }
    assert (Hls : length ls = B) by (unfold ls; rewrite !length_map; exact Hlen).
    assert (Hrow : forall b c, b < B -> c < C ->
              nth (b * C + c) (concat ls) [] = win (padded b c) /\ length (padded b c) = L + S).
    { intros b c Hb Hc.
      destruct (Hrows b [] ltac:(rewrite Hlen; exact Hb)) as [Hrb Hvb]. rewrite Forall_nth in Hvb.
      rewrite (nth_concat_uniform ls C) by (first [exact HF | rewrite Hls; exact Hb | exact Hc]).
      unfold ls.
      rewrite (nth_map_lt (map win) (map (map pad) (rows x)) b [] [])
        by (rewrite length_map, Hlen; exact Hb).
      rewrite (nth_map_lt (map pad) (rows x) b [] []) by (rewrite Hlen; exact Hb).
      rewrite (nth_map_lt win (map pad (nth b (rows x) [])) c [] [])
        by (rewrite length_map, Hrb; exact Hc).
      rewrite (nth_map_lt pad (nth b (rows x) []) c [] []) by (rewrite Hrb; exact Hc).
      split; [reflexivity|].
      unfold padded. cbv zeta. rewrite length_app, repeat_length, (Hvb c [] ltac:(rewrite Hrb; exact Hc)).
      reflexivity. }
    exists (mkT3 (B * C) n P (concat ls)).
    split; [apply patchify_spec; assumption|].
    cbn [dim0 dim1 dim2 rows].
    split; [reflexivity|]. split; [reflexivity|]. split; [reflexivity|].
    split; [rewrite (length_concat_uniform ls C HF), Hls; reflexivity|].
    split.
    + intros b c j Hb Hc Hj. destruct (Hrow b c Hb Hc) as [-> Hpl].
      unfold win, windows. rewrite Hpl. fold n.
      split; [apply length_slide|].
      rewrite nth_slide by exact Hj.
      split; [reflexivity|].
      split; [apply length_window; rewrite Hpl; apply window_in_range; lia|].
      intros HSP Hj1. rewrite nth_slide by exact Hj1. apply window_overlap. lia.
    + unfold PatchEmbedding_forward. rewrite patchify_spec by assumption. reflexivity.
Qed.

Lemma C2_witness :
  exists m xw,
    PatchEmbedding_init true empty_draws 1 2 1 0 0%R = Some m /\
    patchify m (mkT3 1 1 3 [[[1; 2; 3]]]%R) = Some xw /\
    dim1 xw = 3 /\
    nth 2 (nth 0 (rows xw) []) [] = [3; 3]%R.
Proof.
  destruct (PositionalEmbedding_init_spec 1 max_len_default ltac:(lia)) as (pm & Hpm & _).
  set (m := mkPatchEmbedding 2 1
              (TokenEmbedding_init true 2 1 (draw_conv empty_draws 2 1)) pm 0%R).
  assert (Hm : PatchEmbedding_init true empty_draws 1 2 1 0 0%R = Some m).
  { unfold PatchEmbedding_init. rewrite Hpm. reflexivity. }
  set (x := mkT3 1 1 3 [[[1; 2; 3]]]%R).
  assert (Hx : wf3 x) by (apply wf3b_spec; reflexivity).
  destruct (proj2 (C2_patch_embedding_windows true m no_dropout x Hx)
              ltac:(cbn; lia) ltac:(cbn; lia) ltac:(cbn; lia) ltac:(cbn; lia))
    as (xw & Hxw & _ & Hn & _ & _ & Hent & _).
  exists m, xw. split; [exact Hm|]. split; [exact Hxw|]. split; [exact Hn|].
  destruct (Hent 0 0 2 ltac:(cbn; lia) ltac:(cbn; lia) ltac:(cbn; lia)) as (_ & H2 & _).
  change (nth 2 (nth (0 * dim1 x + 0) (rows xw) []) [] = [3; 3]%R).
  rewrite H2. reflexivity.
Defined.

(** C2 fails as stated for short or empty inputs: with [patch_len = 3]
    and [stride = 1] an input of length 1 makes the stated window count
    [floor((1 + 1 - 3) / 1) + 1] equal to 0, yet [forward] raises (unfold
    finds no full window); an input with an empty time axis raises in the
    padding. *)
Lemma C2_counterexample :
  ((1 + 1 - 3) / 1 + 1 = 0)%Z /\
  exists m,
    PatchEmbedding_init true empty_draws 1 3 1 0 0%R = Some m /\
    PatchEmbedding_forward true m no_dropout x_short = None /\
    PatchEmbedding_forward true m no_dropout x_empty_time = None.
Proof.
  split; [reflexivity|].
  destruct (PositionalEmbedding_init_spec 1 max_len_default ltac:(lia)) as (pm & Hpm & _).
  exists (mkPatchEmbedding 3 1 (TokenEmbedding_init true 3 1 (draw_conv empty_draws 3 1)) pm 0%R).
  split; [unfold PatchEmbedding_init; rewrite Hpm; reflexivity|].
  split; reflexivity.
Qed.

(** * Further properties of the code *)

(** ** Helpers *)

Lemma lookup_str_None {V} k (m : list (string * V)) :
  lookup_str k m = None <-> ~ In k (map fst m).
Proof.
  induction m as [|[k' v] m IH]; cbn [lookup_str map fst In].
  - split; auto.
  - destruct (String.eqb_spec k k') as [->|Hne].
    + split; [discriminate|]. intros H. exfalso. apply H. left. reflexivity.
    + rewrite IH. split; intros H H'.
      * destruct H' as [->|H']; [congruence|]. exact (H H').
      * apply H. right. exact H'.
Qed.

Lemma omap_None {X Y} (f : X -> option Y) l :
  omap f l = None <-> exists a, In a l /\ f a = None.
Proof.
  induction l as [|a l IH]; cbn [omap In].
  - split; [discriminate|]. intros (a & [] & _).
  - destruct (f a) as [b|] eqn:Ea.
    + destruct (omap f l) as [bs|] eqn:El.
      * split; [discriminate|]. intros (a' & [<-|Hin] & Ha'); [congruence|].
        assert (Hn : Some bs = None) by (apply IH; exists a'; auto). discriminate.
      * split; [|reflexivity]. intros _. destruct (proj1 IH eq_refl) as (a' & Hin & Ha').
        exists a'. auto.
    + split; [|reflexivity]. intros _. exists a. auto.
Qed.

Lemma omap_Some {X Y} (f : X -> option Y) (g : X -> Y) l r :
  (forall a b, f a = Some b -> b = g a) -> omap f l = Some r -> r = map g l.
Proof.
  intros Hfg. revert r. induction l as [|a l IH]; intros r; cbn [omap map].
  - intros H. injection H as <-. reflexivity.
  - destruct (f a) as [b|] eqn:Ea; [|discriminate].
    destruct (omap f l) as [bs|] eqn:El; [|discriminate].
    intros H. injection H as <-. rewrite (Hfg _ _ Ea), (IH bs eq_refl). reflexivity.
Qed.

Lemma lookup_row_None {A} (e : Embedding A) i :
  lookup_row e i = None <-> ~ (0 <= i < Z.of_nat (num_embeddings e))%Z.
Proof.
  unfold lookup_row. destruct (Z.leb_spec 0 i), (Z.ltb_spec i (Z.of_nat (num_embeddings e)));
    cbn [andb]; split; intros; try discriminate; try reflexivity; lia.
Qed.

Lemma lookup_row_Some {A} (e : Embedding A) i r :
  lookup_row e i = Some r -> r = nth (Z.to_nat i) (emb_weight e) [].
Proof.
  unfold lookup_row. destruct (_ && _); [|discriminate]. intros H. injection H as <-. reflexivity.
Qed.

Lemma embedding_forward_None {A} (e : Embedding A) B L idx :
  embedding_forward e B L idx = None <->
  exists row i, In row idx /\ In i row /\ ~ (0 <= i < Z.of_nat (num_embeddings e))%Z.
Proof.
  unfold embedding_forward. destruct (omap (omap (lookup_row e)) idx) as [r|] eqn:E.
  - split; [discriminate|]. intros (row & i & Hrow & Hi & Hout).
    assert (Hn : omap (omap (lookup_row e)) idx = None).
    { apply omap_None. exists row. split; [exact Hrow|].
      apply omap_None. exists i. split; [exact Hi|]. apply lookup_row_None, Hout. }
    congruence.
  - split; [intros _|reflexivity].
    destruct (proj1 (omap_None _ _) E) as (row & Hrow & Hr).
    destruct (proj1 (omap_None _ _) Hr) as (i & Hi & Hl).
    exists row, i. split; [exact Hrow|]. split; [exact Hi|]. apply lookup_row_None, Hl.
Qed.

Lemma embedding_forward_Some {A} (e : Embedding A) B L idx y :
  embedding_forward e B L idx = Some y ->
  dim0 y = B /\ dim1 y = L /\ dim2 y = embedding_dim e /\
  rows y = map (map (fun i => nth (Z.to_nat i) (emb_weight e) [])) idx.
Proof.
  unfold embedding_forward. destruct (omap (omap (lookup_row e)) idx) as [r|] eqn:E; [|discriminate].
  intros H. injection H as <-. cbn [dim0 dim1 dim2 rows].
  split; [reflexivity|]. split; [reflexivity|]. split; [reflexivity|].
  refine (omap_Some _ _ _ _ _ E). intros a b Hab.
  refine (omap_Some _ _ _ _ _ Hab). intros i r' Hir. apply lookup_row_Some, Hir.
Qed.

Section TokenDims.
Context {A : Type} `{Num A}.

Lemma TokenEmbedding_forward_dims (torch_ge_1_5 : bool) c_in d_model (w : list (list (list A)))
    (x : T3 A) :
  dim2 x = c_in -> 1 <= dim1 x -> 1 <= d_model ->
  exists y, TokenEmbedding_forward torch_ge_1_5 (TokenEmbedding_init torch_ge_1_5 c_in d_model w) x = Some y /\
    dim0 y = dim0 x /\ dim1 y = dim1 x /\ dim2 y = d_model.
Proof.
  intros Hc HL Hd. unfold TokenEmbedding_forward, TokenEmbedding_init; cbn [tok_padding tok_c_in tok_d_model].
  rewrite circular_amounts_token.
  change (dim1 (permute021 x)) with (dim2 x). change (dim2 (permute021 x)) with (dim1 x).
  destruct (Nat.eqb_spec (dim2 x) c_in) as [_|E]; [|lia]. cbn [negb].
  destruct (Nat.eqb_spec d_model 0) as [E|_]; [lia|].
  destruct (Nat.leb_spec 1 (dim1 x)) as [_|E]; [|lia]. cbn [andb negb].
  destruct (Nat.ltb_spec (dim1 x + 1 + 1) kernel_size) as [E|_]; [unfold kernel_size in E; lia|].
  eexists. split; [reflexivity|]. cbn [permute021 dim0 dim1 dim2].
  split; [reflexivity|]. split; [unfold kernel_size; lia|]. reflexivity.
Qed.

Lemma TokenEmbedding_forward_none (torch_ge_1_5 : bool) c_in d_model (w : list (list (list A)))
    (x : T3 A) :
  dim2 x <> c_in \/ dim1 x = 0 \/ d_model = 0 ->
  TokenEmbedding_forward torch_ge_1_5 (TokenEmbedding_init torch_ge_1_5 c_in d_model w) x = None.
Proof.
  intros Hbad. unfold TokenEmbedding_forward, TokenEmbedding_init; cbn [tok_padding tok_c_in tok_d_model].
  rewrite circular_amounts_token.
  change (dim1 (permute021 x)) with (dim2 x). change (dim2 (permute021 x)) with (dim1 x).
  destruct (Nat.eqb_spec (dim2 x) c_in) as [E|_]; [|reflexivity]. cbn [negb].
  destruct (Nat.eqb_spec d_model 0) as [_|Ed]; [reflexivity|].
  destruct (Nat.leb_spec 1 (dim1 x)) as [E'|_]; [lia|reflexivity].
Qed.

End TokenDims.

(** ** [TimeFeatureEmbedding] *)

(** X1: [freq_map[freq]] raises [KeyError] for a [freq] outside
    h, t, s, m, a, w, d, b, so [TimeFeatureEmbedding] cannot be built for
    it, and neither can [DataEmbedding] or [DataEmbedding_wo_pos] with
    [embed_type = 'timeF']. *)
Theorem X1_unknown_freq_raises (torch_ge_1_5 : bool) (g : Draws) (c_in d_model : nat)
    (freq : string) (p : R) :
  (TimeFeatureEmbedding_init d_model freq (draw_linear g) = None <->
     ~ In freq (map fst freq_map)) /\
  (~ In freq (map fst freq_map) ->
     DataEmbedding_init torch_ge_1_5 g c_in d_model "timeF" freq p = None /\
     DataEmbedding_wo_pos_init torch_ge_1_5 g c_in d_model "timeF" freq p = None).
Proof.
  assert (E : TimeFeatureEmbedding_init d_model freq (draw_linear g) = None <->
              ~ In freq (map fst freq_map)).
  { rewrite <- lookup_str_None. unfold TimeFeatureEmbedding_init.
    destruct (lookup_str freq freq_map); split; congruence. }
  split; [exact E|]. intros Hn. apply E in Hn.
  unfold DataEmbedding_init, DataEmbedding_wo_pos_init.
  destruct (PositionalEmbedding_init d_model max_len_default); [|split; reflexivity].
  unfold TemporalModule_init. rewrite String.eqb_refl. cbn [negb]. rewrite Hn.
  split; reflexivity.
Qed.

(** X2: a [TimeFeatureEmbedding] built for [freq] raises on an input whose
    last dimension is not [freq_map[freq]], and otherwise maps an input of
    shape [B, L, freq_map[freq]] to one of shape [B, L, d_model]. *)
Theorem X2_time_feature_input_width (d_model : nat) (freq : string)
    (draw : nat -> nat -> list (list R)) (m : TimeFeatureEmbedding)
    (Hinit : TimeFeatureEmbedding_init d_model freq draw = Some m) (x : T3 R) :
  (TimeFeatureEmbedding_forward m x = None <-> lookup_str freq freq_map <> Some (dim2 x)) /\
  (forall y, TimeFeatureEmbedding_forward m x = Some y ->
     dim0 y = dim0 x /\ dim1 y = dim1 x /\ dim2 y = d_model).
Proof.
  unfold TimeFeatureEmbedding_init in Hinit.
  destruct (lookup_str freq freq_map) as [k|] eqn:Ek; [|discriminate].
  injection Hinit as <-.
  unfold TimeFeatureEmbedding_forward, Linear_forward; cbn [in_features out_features].
  destruct (Nat.eqb_spec (dim2 x) k) as [->|Hne].
  - split; [split; [discriminate|intros H; exfalso; apply H; reflexivity]|].
    intros y Hy. injection Hy as <-. auto.
  - split; [split; [intros _ H; injection H as ->; apply Hne; reflexivity|reflexivity]|].
    discriminate.
Qed.

Lemma X2_witness :
  exists m, TimeFeatureEmbedding_init 1 "h" (fun _ _ => []) = Some m /\
    TimeFeatureEmbedding_forward m (mkT3 1 1 5 [[[0; 0; 0; 0; 0]]]%R) = None.
Proof.
  exists (mkLinear 4 1 [] None).
  assert (Hinit : TimeFeatureEmbedding_init 1 "h" (fun _ _ => []) = Some (mkLinear 4 1 [] None))
    by reflexivity.
  split; [exact Hinit|].
  apply (proj1 (X2_time_feature_input_width 1 "h" _ _ Hinit _)). cbn. discriminate.
Defined.

(** ** Embedding lookups *)

(** X3: [FixedEmbedding.forward] (an [nn.Embedding] lookup) raises exactly
    when some index lies outside [[0, c_in)] (a negative index included);
    otherwise entry [b, l] of the result is row [idx[b, l]] of the
    table. *)
Theorem X3_fixed_embedding_lookup (e : FixedEmbedding) (B L : nat) (idx : list (list Z)) :
  (FixedEmbedding_forward e B L idx = None <->
     exists row i, In row idx /\ In i row /\ ~ (0 <= i < Z.of_nat (num_embeddings e))%Z) /\
  (forall y, FixedEmbedding_forward e B L idx = Some y ->
     dim0 y = B /\ dim1 y = L /\ dim2 y = embedding_dim e /\
     rows y = map (map (fun i => nth (Z.to_nat i) (emb_weight e) [])) idx).
Proof.
  split; [apply embedding_forward_None|]. intros y. apply embedding_forward_Some.
Qed.

(** ** [TokenEmbedding] *)

(** X4: [TokenEmbedding.forward] raises exactly when the last dimension of
    [x] is not [c_in], the time axis is empty (under both padding
    conventions, the circular padding adds one step on each side) or the
    convolution has no output channel ([d_model = 0]); otherwise the output
    has shape [B, L, d_model]. *)
Theorem X4_token_embedding_raises {A : Type} `{Num A} (torch_ge_1_5 : bool) (c_in d_model : nat)
    (w : list (list (list A))) (x : T3 A) :
  (TokenEmbedding_forward torch_ge_1_5 (TokenEmbedding_init torch_ge_1_5 c_in d_model w) x = None <->
     dim2 x <> c_in \/ dim1 x = 0 \/ d_model = 0) /\
  (forall y, TokenEmbedding_forward torch_ge_1_5 (TokenEmbedding_init torch_ge_1_5 c_in d_model w) x = Some y ->
     dim0 y = dim0 x /\ dim1 y = dim1 x /\ dim2 y = d_model).
Proof.
  destruct (Nat.eq_dec (dim2 x) c_in) as [Hc|Hc];
    [destruct (Nat.eq_dec (dim1 x) 0) as [HL|HL]; [|destruct (Nat.eq_dec d_model 0) as [Hd|Hd]]|].
  - rewrite TokenEmbedding_forward_none by (right; left; exact HL).
    split; [split; [intros _; right; left; exact HL|reflexivity]|discriminate].
  - rewrite TokenEmbedding_forward_none by (right; right; exact Hd).
    split; [split; [intros _; right; right; exact Hd|reflexivity]|discriminate].
  - destruct (TokenEmbedding_forward_dims torch_ge_1_5 c_in d_model w x Hc ltac:(lia) ltac:(lia))
      as (y & Hy & Y0 & Y1 & Y2).
    rewrite Hy. split; [split; [discriminate|intros [?|[?|?]]; contradiction]|].
    intros y' Hy'. injection Hy' as <-. auto.
  - rewrite TokenEmbedding_forward_none by (left; exact Hc).
    split; [split; [intros _; left; exact Hc|reflexivity]|discriminate].
Qed.

(** X5: for [d_model >= 1], with a single time step the circular padding repeats that step on
    both sides, so every output is the input step weighted by the sum of
    the three kernel taps: [y[b, 0, o] = sum_c (w[o,c,0] + w[o,c,1] +
    w[o,c,2]) * x[b, 0, c]]. *)
Theorem X5_token_embedding_single_step (torch_ge_1_5 : bool) (c_in d_model : nat)
    (w : list (list (list R))) (x : T3 R)
    (Hw : length w = d_model) (Hd : 1 <= d_model) (Hx : wf3 x) (Hc : dim2 x = c_in)
    (H1 : dim1 x = 1) :
  exists y,
    TokenEmbedding_forward torch_ge_1_5 (TokenEmbedding_init torch_ge_1_5 c_in d_model w) x = Some y /\
    dim0 y = dim0 x /\ dim1 y = 1 /\ dim2 y = d_model /\
    forall b o, b < dim0 x -> o < d_model ->
      get3 0%R y b 0 o =
      vsum (map (fun c =>
        ((nth 0 (nth c (nth o w []) []) 0 + nth 1 (nth c (nth o w []) []) 0
          + nth 2 (nth c (nth o w []) []) 0) * get3 0%R x b 0 c)%R) (seq 0 c_in)).
Proof.
  destruct (TokenEmbedding_forward_spec torch_ge_1_5 c_in d_model w x Hw Hd Hx Hc ltac:(lia))
    as (y & Hy & Y0 & Y1 & Y2 & _ & Hent).
  exists y. split; [exact Hy|]. split; [exact Y0|]. split; [congruence|]. split; [exact Y2|].
  intros b o Hb Ho. rewrite Hent by lia. rewrite H1.
  apply f_equal, map_ext. intros c.
  unfold kernel_size. cbn [seq map vsum fold_right Nat.add Nat.sub Nat.modulo].
  cbn [nadd nmul nzero Num_R]. ring.
Qed.

Lemma X5_witness :
  exists y,
    TokenEmbedding_forward true (TokenEmbedding_init true 1 1 [[[1; 2; 3]]]%R)
      (mkT3 1 1 1 [[[2]]]%R) = Some y /\
    get3 0%R y 0 0 0 = 12%R.
Proof.
  destruct (X5_token_embedding_single_step true 1 1 [[[1; 2; 3]]]%R (mkT3 1 1 1 [[[2]]]%R))
    as (y & Hy & _ & _ & _ & Hent).
  - reflexivity.
  - lia.
  - apply wf3b_spec. reflexivity.
  - reflexivity.
  - reflexivity.
  - exists y. split; [exact Hy|]. rewrite Hent by (cbn; lia). cbn. lra.
Defined.

(** ** [TemporalEmbedding]: the range of the calendar indices *)

Lemma column_bad (xz : T3 Z) k n :
  (exists row i, In row (map (map (fun v => nth k v 0%Z)) (rows xz)) /\ In i row /\
                 ~ (0 <= i < Z.of_nat n)%Z) <->
  (exists r v, In r (rows xz) /\ In v r /\ ~ (0 <= nth k v 0 < Z.of_nat n)%Z).
Proof.
  split.
  - intros (row & i & Hrow & Hi & Hout).
    apply in_map_iff in Hrow as (r & <- & Hr). apply in_map_iff in Hi as (v & <- & Hv).
    exists r, v. auto.
  - intros (r & v & Hr & Hv & Hout).
    exists (map (fun u => nth k u 0%Z) r), (nth k v 0%Z).
    split; [exact (in_map (map (fun u => nth k u 0%Z)) _ _ Hr)|].
    split; [exact (in_map (fun u => nth k u 0%Z) _ _ Hv)|exact Hout].
Qed.

(** With the columns present, the forward pass fails exactly when one of
    its lookups fails. *)
Lemma TemporalEmbedding_forward_None_iff (m : TemporalEmbedding) (xz : T3 Z) :
  let B := dim0 xz in
  let L := dim1 xz in
  let D := embedding_dim (hour_embed m) in
  let col k := map (map (fun v => nth k v 0%Z)) (rows xz) in
  embedding_dim (weekday_embed m) = D ->
  embedding_dim (day_embed m) = D ->
  embedding_dim (month_embed m) = D ->
  (forall e, minute_embed m = Some e -> embedding_dim e = D) ->
  match minute_embed m with Some _ => 5 | None => 4 end <= dim2 xz ->
  TemporalEmbedding_forward m (map3 IZR xz) = None <->
  embedding_forward (month_embed m) B L (col 0) = None \/
  embedding_forward (day_embed m) B L (col 1) = None \/
  embedding_forward (weekday_embed m) B L (col 2) = None \/
  embedding_forward (hour_embed m) B L (col 3) = None \/
  match minute_embed m with
  | Some e => embedding_forward e B L (col 4) = None
  | None => False
  end.
Proof.
  intros B L D col HDw HDd HDmo HDmin Hk.
  assert (Hk4 : 4 <= dim2 xz) by (destruct (minute_embed m); lia).
  split.
  - intros Hnone.
    destruct (embedding_forward (month_embed m) B L (col 0)) as [mo|] eqn:Emo; [|left; reflexivity].
    destruct (embedding_forward (day_embed m) B L (col 1)) as [da|] eqn:Eda; [|right; left; reflexivity].
    destruct (embedding_forward (weekday_embed m) B L (col 2)) as [we|] eqn:Ewe;
      [|right; right; left; reflexivity].
    destruct (embedding_forward (hour_embed m) B L (col 3)) as [ho|] eqn:Eho;
      [|right; right; right; left; reflexivity].
    right; right; right; right.
    destruct (minute_embed m) as [e|] eqn:Hme.
    + destruct (embedding_forward e B L (col 4)) as [mi|] eqn:Emi; [|reflexivity].
      exfalso.
      destruct (TemporalEmbedding_forward_sum m xz mo da we ho (get3 0%R mi))
        as (y & Hy & _); try assumption.
      * rewrite Hme. exact Hk.
      * rewrite Hme. split; [apply HDmin; reflexivity|]. exists mi. auto.
      * congruence.
    + exfalso.
      destruct (TemporalEmbedding_forward_sum m xz mo da we ho (fun _ _ _ => 0%R))
        as (y & Hy & _); try assumption.
      * rewrite Hme. exact Hk.
      * rewrite Hme. reflexivity.
      * congruence.
  - intros Hbad. unfold TemporalEmbedding_forward. rewrite map3_trunc_IZR.
    rewrite (select_last_lt 0%Z 3), (select_last_lt 0%Z 2), (select_last_lt 0%Z 1),
      (select_last_lt 0%Z 0) by lia.
    cbv beta iota zeta. fold B L. fold (col 3) (col 2) (col 1) (col 0).
    destruct (minute_embed m) as [e|] eqn:Hme.
    + rewrite (select_last_lt 0%Z 4) by lia. cbv beta iota. fold (col 4).
      repeat match goal with
             | |- context [embedding_forward ?a ?b ?c ?d] =>
                 let E := fresh "E" in destruct (embedding_forward a b c d) eqn:E
             end; try reflexivity;
      destruct Hbad as [H|[H|[H|[H|H]]]]; congruence.
    + cbv beta iota.
      repeat match goal with
             | |- context [embedding_forward ?a ?b ?c ?d] =>
                 let E := fresh "E" in destruct (embedding_forward a b c d) eqn:E
             end; try reflexivity;
      destruct Hbad as [H|[H|[H|[H|H]]]]; first [congruence | contradiction].
Qed.

(** X7: on an integer input with the needed columns, [TemporalEmbedding.forward]
    raises exactly when some calendar index lies outside its table: month
    [x[..., 0]] outside [[0, 13)], day [x[..., 1]] outside [[0, 32)],
    weekday [x[..., 2]] outside [[0, 7)], hour [x[..., 3]] outside
    [[0, 24)], or, with [freq = 't'], minute [x[..., 4]] outside [[0, 4)]
    (negative values included). *)
Theorem X7_temporal_index_range (draw : nat -> nat -> list (list R)) (d_model : nat)
    (embed_type freq : string) (m : TemporalEmbedding)
    (Hinit : TemporalEmbedding_init draw d_model embed_type freq = Some m)
    (xz : T3 Z) (Hk : (if String.eqb freq "t" then 5 else 4) <= dim2 xz) :
  TemporalEmbedding_forward m (map3 IZR xz) = None <->
  exists r v, In r (rows xz) /\ In v r /\
    (~ (0 <= nth 0 v 0 < 13)%Z \/ ~ (0 <= nth 1 v 0 < 32)%Z \/ ~ (0 <= nth 2 v 0 < 7)%Z \/
     ~ (0 <= nth 3 v 0 < 24)%Z \/
     (String.eqb freq "t" = true /\ ~ (0 <= nth 4 v 0 < 4)%Z)).
Proof.
  destruct (TemporalEmbedding_init_spec draw d_model embed_type freq m Hinit)
    as (Eh & Ew & Ed & Emo & Emin & Enone).
  destruct (Embed_spec draw embed_type hour_size d_model _ Eh) as (Dh & Nh & _).
  destruct (Embed_spec draw embed_type weekday_size d_model _ Ew) as (Dw & Nw & _).
  destruct (Embed_spec draw embed_type day_size d_model _ Ed) as (Dd & Nd & _).
  destruct (Embed_spec draw embed_type month_size d_model _ Emo) as (Dmo & Nmo & _).
  assert (Hmin : forall e, minute_embed m = Some e ->
            embedding_dim e = d_model /\ num_embeddings e = minute_size).
  { intros e He. destruct (String.eqb freq "t") eqn:Eft.
    - destruct (Emin eq_refl) as (e' & He' & Ee'). rewrite He in He'. injection He' as <-.
      destruct (Embed_spec draw embed_type minute_size d_model _ Ee') as (De & Ne & _). auto.
    - rewrite (Enone eq_refl) in He. discriminate. }
  assert (Hneed : (if String.eqb freq "t" then 5 else 4) =
                  match minute_embed m with Some _ => 5 | None => 4 end).
  { destruct (String.eqb freq "t") eqn:Eft.
    - destruct (Emin eq_refl) as (e & -> & _). reflexivity.
    - rewrite (Enone eq_refl). reflexivity. }
  rewrite Hneed in Hk.
  rewrite (TemporalEmbedding_forward_None_iff m xz) by
    (first [congruence | exact Hk | intros e He; destruct (Hmin e He); congruence]).
  rewrite !embedding_forward_None, !column_bad, Nmo, Nd, Nw, Nh.
  assert (Hm4 : match minute_embed m with
                | Some e => embedding_forward e (dim0 xz) (dim1 xz)
                              (map (map (fun v => nth 4 v 0%Z)) (rows xz)) = None
                | None => False end <->
                exists r v, In r (rows xz) /\ In v r /\
                  String.eqb freq "t" = true /\ ~ (0 <= nth 4 v 0 < 4)%Z).
  { destruct (minute_embed m) as [e|] eqn:Hme.
    - destruct (Hmin e eq_refl) as (_ & Ne).
      assert (Eft : String.eqb freq "t" = true).
      { destruct (String.eqb freq "t") eqn:Eft; [reflexivity|].
        rewrite (Enone eq_refl) in Hme. discriminate. }
      rewrite embedding_forward_None, column_bad, Ne. rewrite Eft.
      split; intros (r & v & Hr & Hv & H); exists r, v; tauto.
    - split; [contradiction|]. intros (r & v & _ & _ & Eft & _).
      destruct (Emin Eft) as (e & He & _). discriminate. }
  rewrite Hm4. unfold month_size, day_size, weekday_size, hour_size.
  split.
  - intros [(r & v & Hr & Hv & H)|[(r & v & Hr & Hv & H)|[(r & v & Hr & Hv & H)|
           [(r & v & Hr & Hv & H)|(r & v & Hr & Hv & H)]]]];
      exists r, v; (split; [exact Hr|split; [exact Hv|tauto]]).
  - intros (r & v & Hr & Hv & [H|[H|[H|[H|H]]]]).
    + left. exists r, v. auto.
    + right; left. exists r, v. auto.
    + right; right; left. exists r, v. auto.
    + right; right; right; left. exists r, v. auto.
    + right; right; right; right. exists r, v. tauto.
Qed.

Lemma X7_witness :
  exists m,
    TemporalEmbedding_init (fun n _ => repeat [1%R] n) 1 "learned" "h" = Some m /\
    TemporalEmbedding_forward m (map3 IZR (mkT3 1 1 4 [[[13; 2; 3; 4]]]%Z)) = None.
Proof.
  set (draw := fun n (_ : nat) => repeat [1%R] n).
  set (m := mkTemporalEmbedding None
              (learned_embedding 24 1 (draw 24 1)) (learned_embedding 7 1 (draw 7 1))
              (learned_embedding 32 1 (draw 32 1)) (learned_embedding 13 1 (draw 13 1))).
  assert (Hinit : TemporalEmbedding_init draw 1 "learned" "h" = Some m) by reflexivity.
  exists m. split; [exact Hinit|].
  apply (X7_temporal_index_range draw 1 "learned" "h" m Hinit); [cbn; lia|].
  exists [[13; 2; 3; 4]]%Z, [13; 2; 3; 4]%Z.
  split; [left; reflexivity|]. split; [left; reflexivity|]. left. cbn. lia.
Defined.

(** ** More helpers: entries, broadcasting against the positional table *)

Lemma get3_out {A} (d : A) (x : T3 A) i j k :
  wf3 x -> ~ (i < dim0 x /\ j < dim1 x /\ k < dim2 x) -> get3 d x i j k = d.
Proof.
  intros [Hlen Hrows] Hout. rewrite Forall_nth in Hrows. unfold get3.
  destruct (Nat.lt_ge_cases i (dim0 x)) as [Hi|Hi];
    [|rewrite (nth_overflow (rows x)) by lia; destruct j, k; reflexivity].
  destruct (Hrows i [] ltac:(lia)) as [Hr Hv]. rewrite Forall_nth in Hv.
  destruct (Nat.lt_ge_cases j (dim1 x)) as [Hj|Hj];
    [|rewrite (nth_overflow (nth i (rows x) [])) by lia; destruct k; reflexivity].
  apply nth_overflow. rewrite (Hv j [] ltac:(lia)). lia.
Qed.

Lemma nth_zipWith {X Y W} (f : X -> Y -> W) l1 l2 n d d1 d2 :
  n < length l1 -> n < length l2 -> nth n (zipWith f l1 l2) d = f (nth n l1 d1) (nth n l2 d2).
Proof.
  revert l2 n. induction l1 as [|a l1 IH]; intros l2 n H1 H2; [cbn in H1; lia|].
  destruct l2 as [|b l2]; [cbn in H2; lia|].
  destruct n as [|n]; [reflexivity|]. cbn [zipWith nth]. apply IH; cbn in *; lia.
Qed.

Lemma linear_vec_nth (l : Linear R) (bias : list R) (v : list R) o :
  lin_bias l = Some bias -> o < length (lin_weight l) -> o < length bias ->
  nth o (linear_vec l v) 0%R = (dot (nth o (lin_weight l) []) v + nth o bias 0)%R.
Proof.
  intros Hb Ho1 Ho2. unfold linear_vec. rewrite Hb.
  rewrite (nth_zipWith _ _ _ _ _ 0%R 0%R) by (rewrite ?length_map; assumption).
  rewrite (nth_map_lt _ _ _ _ []) by exact Ho1. reflexivity.
Qed.

Section PermuteRows.
Context {A : Type} `{Num A}.

Lemma nth_permute_row (x : T3 A) b v :
  b < length (rows x) -> v < dim2 x ->
  nth v (nth b (rows (permute021 x)) []) [] = map (fun r => nth v r nzero) (nth b (rows x) []).
Proof.
  intros Hb Hv. unfold permute021; cbn [rows].
  rewrite (nth_map_lt _ _ _ _ []) by exact Hb.
  rewrite (nth_map_lt _ _ _ _ 0) by (rewrite length_seq; exact Hv).
  rewrite seq_nth by exact Hv. reflexivity.
Qed.

Lemma length_permute_row (x : T3 A) b :
  b < length (rows x) -> length (nth b (rows (permute021 x)) []) = dim2 x.
Proof.
  intros Hb. unfold permute021; cbn [rows].
  rewrite (nth_map_lt _ _ _ _ []) by exact Hb. rewrite length_map, length_seq. reflexivity.
Qed.

(** [v + pe[:, :L]] for [v] of shape [B, L, D] and a table of [M >= 2]
    positions: broadcasting fails exactly when [L > M]. *)
Lemma add3_positional (v q : T3 A) M :
  2 <= M -> dim0 q = 1 -> dim1 q = Nat.min (dim1 v) M -> dim2 q = dim2 v ->
  (add3 v q = None <-> M < dim1 v) /\
  (forall z, add3 v q = Some z -> dim0 z = dim0 v /\ dim1 z = dim1 v /\ dim2 z = dim2 v).
Proof.
  intros HM Hq0 Hq1 Hq2.
  assert (E0 : bdim (dim0 v) (dim0 q) = Some (dim0 v)).
  { rewrite Hq0. unfold bdim.
    destruct (Nat.eqb_spec (dim0 v) 1); [reflexivity|]. rewrite Nat.eqb_refl. reflexivity. }
  assert (E2 : bdim (dim2 v) (dim2 q) = Some (dim2 v)).
  { rewrite Hq2. unfold bdim. rewrite Nat.eqb_refl. reflexivity. }
  unfold add3 at 1 2. rewrite E0, E2.
  destruct (Nat.le_gt_cases (dim1 v) M) as [HL|HL].
  - assert (E1 : bdim (dim1 v) (dim1 q) = Some (dim1 v)).
    { rewrite Hq1, Nat.min_l by exact HL. unfold bdim. rewrite Nat.eqb_refl. reflexivity. }
    rewrite E1. split; [split; [discriminate|lia]|].
    intros z Hz. injection Hz as <-. cbn. auto.
  - assert (E1 : bdim (dim1 v) (dim1 q) = None).
    { rewrite Hq1, Nat.min_r by lia. unfold bdim.
      destruct (Nat.eqb_spec (dim1 v) M); [lia|].
      destruct (Nat.eqb_spec (dim1 v) 1); [lia|].
      destruct (Nat.eqb_spec M 1); [lia|]. reflexivity. }
    rewrite E1. split; [split; [intros _; exact HL|reflexivity]|discriminate].
Qed.

End PermuteRows.

Lemma apply_dropout_dims p dd (z : T3 R) :
  dim0 (apply_dropout p dd z) = dim0 z /\ dim1 (apply_dropout p dd z) = dim1 z /\
  dim2 (apply_dropout p dd z) = dim2 z.
Proof.
  unfold apply_dropout, dropout. destruct (dd_training dd); auto.
Qed.

Lemma PositionalEmbedding_init_pos d_model max_len m :
  PositionalEmbedding_init d_model max_len = Some m -> 1 <= d_model.
Proof.
  destruct d_model as [|d]; [|intros; lia].
  unfold PositionalEmbedding_init. cbn [Nat.modulo Nat.eqb negb].
  rewrite sinusoid_table_zero. discriminate.
Qed.

Lemma PositionalEmbedding_forward_dims m (x : T3 R) d_model max_len :
  PositionalEmbedding_init d_model max_len = Some m ->
  dim0 (PositionalEmbedding_forward m x) = 1 /\
  dim1 (PositionalEmbedding_forward m x) = Nat.min (dim1 x) max_len /\
  dim2 (PositionalEmbedding_forward m x) = d_model.
Proof.
  intros Hm. pose proof (PositionalEmbedding_init_pos _ _ _ Hm) as Hd.
  destruct (PositionalEmbedding_init_spec d_model max_len Hd) as (m' & Hm' & H0 & H1 & H2 & _).
  rewrite Hm in Hm'. injection Hm' as <-.
  unfold PositionalEmbedding_forward, slice1; cbn [dim0 dim1 dim2]. auto.
Qed.

(** ** [DataEmbedding_inverted] *)

(** X8: [DataEmbedding_inverted] embeds each variate as one token: the
    linear layer (with bias) is applied to the whole time series of the
    variate, so [x] of shape [B, L, N] must have [L = c_in] (otherwise
    [forward] raises) and gives [N] tokens of size [d_model]; with marks of
    shape [B, L, M] the [M] mark series are further tokens placed after
    those of [x], and marks of another batch size or length raise. *)
Theorem X8_inverted_variate_tokens (g : Draws) (c_in d_model : nat) (p : R) (dd : DropoutDraw)
    (x : T3 R) (Hx : wf3 x)
    (HW : length (draw_linear g c_in d_model) = d_model)
    (Hbias : length (draw_bias g d_model) = d_model) :
  let m := DataEmbedding_inverted_init g c_in d_model p in
  let token s o :=
    (dot (nth o (draw_linear g c_in d_model) []) s + nth o (draw_bias g d_model) 0)%R in
  (DataEmbedding_inverted_forward m dd x None = None <-> dim1 x <> c_in) /\
  (dim1 x = c_in ->
   exists z, DataEmbedding_inverted_forward m dd x None = Some (apply_dropout p dd z) /\
     dim0 z = dim0 x /\ dim1 z = dim2 x /\ dim2 z = d_model /\
     forall b v o, b < dim0 x -> v < dim2 x -> o < d_model ->
       get3 0%R z b v o = token (map (fun r => nth v r 0%R) (nth b (rows x) [])) o) /\
  (forall xm, wf3 xm ->
     (DataEmbedding_inverted_forward m dd x (Some xm) = None <->
        dim0 xm <> dim0 x \/ dim1 xm <> dim1 x \/ dim1 x <> c_in) /\
     (dim0 xm = dim0 x -> dim1 xm = dim1 x -> dim1 x = c_in ->
      exists z, DataEmbedding_inverted_forward m dd x (Some xm) = Some (apply_dropout p dd z) /\
        dim0 z = dim0 x /\ dim1 z = dim2 x + dim2 xm /\ dim2 z = d_model /\
        forall b v o, b < dim0 x -> o < d_model ->
          (v < dim2 x ->
             get3 0%R z b v o = token (map (fun r => nth v r 0%R) (nth b (rows x) [])) o) /\
          (dim2 x <= v < dim2 x + dim2 xm ->
             get3 0%R z b v o =
             token (map (fun r => nth (v - dim2 x) r 0%R) (nth b (rows xm) [])) o))).
Proof.
  intros m token.
  set (l := mkLinear c_in d_model (draw_linear g c_in d_model) (Some (draw_bias g d_model))).
  assert (Hl : di_value_embedding m = l) by reflexivity.
  assert (Hp : di_dropout m = p) by reflexivity.
  destruct Hx as [Hxl Hxr].
  assert (Htok : forall s o, o < d_model -> nth o (linear_vec l s) 0%R = token s o).
  { intros s o Ho. apply linear_vec_nth; [reflexivity|cbn; lia|lia]. }
  split; [|split].
  - unfold DataEmbedding_inverted_forward. rewrite Hl. unfold Linear_forward.
    change (dim2 (permute021 x)) with (dim1 x). cbn [in_features l].
    destruct (Nat.eqb_spec (dim1 x) c_in); split; congruence.
  - intros Hc. unfold DataEmbedding_inverted_forward. rewrite Hl, Hp. unfold Linear_forward.
    change (dim2 (permute021 x)) with (dim1 x). cbn [in_features out_features l].
    destruct (Nat.eqb_spec (dim1 x) c_in) as [_|E]; [|contradiction].
    eexists. split; [reflexivity|]. cbn [dim0 dim1 dim2 permute021].
    split; [reflexivity|]. split; [reflexivity|]. split; [reflexivity|].
    intros b v o Hb Hv Ho. unfold get3; cbn [rows].
    assert (Hb' : b < length (rows (permute021 x))) by (unfold permute021; cbn; rewrite length_map; lia).
    rewrite (nth_map_lt _ _ _ _ []) by exact Hb'.
    rewrite (nth_map_lt _ _ _ _ []) by (rewrite length_permute_row by lia; exact Hv).
    rewrite nth_permute_row by lia. apply Htok, Ho.
  - intros xm [Hml Hmr].
    unfold DataEmbedding_inverted_forward. rewrite Hl, Hp. unfold cat1.
    change (dim0 (permute021 x)) with (dim0 x). change (dim0 (permute021 xm)) with (dim0 xm).
    change (dim2 (permute021 x)) with (dim1 x). change (dim2 (permute021 xm)) with (dim1 xm).
    change (dim1 (permute021 x)) with (dim2 x). change (dim1 (permute021 xm)) with (dim2 xm).
    destruct (Nat.eqb_spec (dim0 x) (dim0 xm)) as [E0|E0];
      [destruct (Nat.eqb_spec (dim1 x) (dim1 xm)) as [E1|E1]|]; cbn [andb].
    + unfold Linear_forward; cbn [dim2 in_features out_features l].
      destruct (Nat.eqb_spec (dim1 x) c_in) as [Hc|Hc].
      * split; [split; [discriminate|intros [H|[H|H]]; congruence]|].
        intros _ _ _. eexists. split; [reflexivity|]. cbn [dim0 dim1 dim2].
        split; [reflexivity|]. split; [reflexivity|]. split; [reflexivity|].
        intros b v o Hb Ho. unfold get3; cbn [rows].
        assert (Hbx : b < length (rows (permute021 x))) by (unfold permute021; cbn; rewrite length_map; lia).
        assert (Hbm : b < length (rows (permute021 xm))) by (unfold permute021; cbn; rewrite length_map; lia).
        assert (Hzw : b < length (zipWith (@app _) (rows (permute021 x)) (rows (permute021 xm)))).
        { assert (Hz : forall (l1 l2 : list (list (list R))), length l1 = length l2 ->
                    length (zipWith (@app _) l1 l2) = length l1).
          { induction l1 as [|a l1 IH]; intros [|b' l2] Hlen; cbn in *; try lia. rewrite IH; lia. }
          rewrite Hz; [exact Hbx|]. unfold permute021; cbn; rewrite !length_map; lia. }
        rewrite (nth_map_lt _ _ _ _ []) by exact Hzw.
        rewrite (nth_zipWith _ _ _ _ _ [] []) by assumption.
        split.
        -- intros Hv.
           rewrite (nth_map_lt _ _ _ _ [])
             by (rewrite length_app, length_permute_row, length_permute_row by lia; lia).
           rewrite app_nth1 by (rewrite length_permute_row by lia; exact Hv).
           rewrite nth_permute_row by lia. apply Htok, Ho.
        -- intros Hv.
           rewrite (nth_map_lt _ _ _ _ [])
             by (rewrite length_app, length_permute_row, length_permute_row by lia; lia).
           rewrite app_nth2 by (rewrite length_permute_row by lia; lia).
           rewrite length_permute_row by lia.
           rewrite nth_permute_row by lia. apply Htok, Ho.
      * split; [split; [intros _; right; right; exact Hc|reflexivity]|].
        intros _ _ Hc'. contradiction.
    + split; [split; [intros _; right; left; congruence|reflexivity]|].
      intros _ Hc' _. congruence.
    + split; [split; [intros _; left; congruence|reflexivity]|].
      intros Hc' _ _. congruence.
Qed.

Lemma X8_witness :
  exists z,
    DataEmbedding_inverted_forward (DataEmbedding_inverted_init
        (mkDraws (fun _ _ => []) (fun _ _ => []) (fun _ _ => [[1; 1]]) (fun _ => [5]))%R 2 1 0%R)
      no_dropout (mkT3 1 2 1 [[[1]; [2]]]%R) None = Some (apply_dropout 0%R no_dropout z) /\
    get3 0%R z 0 0 0 = 8%R.
Proof.
  set (g := (mkDraws (fun _ _ => []) (fun _ _ => []) (fun _ _ => [[1; 1]]) (fun _ => [5]))%R).
  destruct (proj1 (proj2 (X8_inverted_variate_tokens g 2 1 0%R no_dropout (mkT3 1 2 1 [[[1]; [2]]]%R)
              ltac:(apply wf3b_spec; reflexivity) eq_refl eq_refl)) eq_refl)
    as (z & Hz & _ & _ & _ & Hent).
  exists z. split; [exact Hz|]. rewrite Hent by (cbn; lia). cbn. lra.
Defined.

(** ** The sinusoidal tables *)

(** X9: every entry of the positional table lies in [[-1, 1]] (reads past
    its end give the default 0), and its first position alternates
    [0, 1, 0, 1, ...] ([sin 0] and [cos 0]). *)
Theorem X9_positional_entries_bounded (d_model max_len : nat) (m : PositionalEmbedding)
    (Hinit : PositionalEmbedding_init d_model max_len = Some m) :
  (forall i p k, (-1 <= get3 0%R (pe m) i p k <= 1)%R) /\
  (forall k, k < d_model -> 1 <= max_len ->
     get3 0%R (pe m) 0 0 k = if Nat.even k then 0%R else 1%R).
Proof.
  pose proof (PositionalEmbedding_init_pos _ _ _ Hinit) as Hd.
  destruct (PositionalEmbedding_init_spec d_model max_len Hd)
    as (m' & Hm' & H0 & H1 & H2 & Hwf & Hsin & Hcos).
  rewrite Hinit in Hm'. injection Hm' as <-.
  assert (Hk : forall k, k = 2 * (k / 2) /\ Nat.even k = true \/ k = 2 * (k / 2) + 1 /\ Nat.even k = false).
  { intros k. destruct (Nat.Even_or_Odd k) as [[j ->]|[j ->]].
    - left. rewrite (proj1 (proj2 (mod2_even j))). split; [reflexivity|].
      apply Nat.even_spec. exists j. reflexivity.
    - right. assert (E2 : (2 * j + 1) / 2 = j) by (symmetry; apply (Nat.div_unique _ _ _ 1); lia).
      rewrite E2. split; [reflexivity|].
      assert (Ho : Nat.odd (2 * j + 1) = true) by (apply Nat.odd_spec; exists j; reflexivity).
      unfold Nat.odd in Ho. destruct (Nat.even (2 * j + 1)); [discriminate|reflexivity]. }
  split.
  - intros i p k.
    destruct (Nat.eq_dec i 0) as [->|Hi];
      [destruct (Nat.lt_ge_cases p max_len) as [Hp|Hp];
         [destruct (Nat.lt_ge_cases k d_model) as [Hkd|Hkd]|]|].
    + destruct (Hk k) as [[Ek _]|[Ek _]]; rewrite Ek.
      * rewrite Hsin by lia. apply SIN_bound.
      * rewrite Hcos by lia. apply COS_bound.
    + rewrite get3_out by (exact Hwf || lia). lra.
    + rewrite get3_out by (exact Hwf || lia). lra.
    + rewrite get3_out by (exact Hwf || lia). lra.
  - intros k Hkd Hmax. destruct (Hk k) as [[Ek Ev]|[Ek Ev]]; rewrite Ev; rewrite Ek.
    + rewrite Hsin by lia. rewrite Rmult_0_l. apply sin_0.
    + rewrite Hcos by lia. rewrite Rmult_0_l. apply cos_0.
Qed.

Lemma X9_witness :
  exists m, PositionalEmbedding_init 4 3 = Some m /\ get3 0%R (pe m) 0 0 3 = 1%R.
Proof.
  destruct (PositionalEmbedding_init_spec 4 3 ltac:(lia)) as (m & Hm & _).
  exists m. split; [exact Hm|].
  exact (proj2 (X9_positional_entries_bounded 4 3 m Hm) 3 ltac:(lia) ltac:(lia)).
Defined.

(** X10: for an even [d], row [p] of the table of [FixedEmbedding(c_in, d)]
    is the positional encoding [pe[0, p, :]] of [PositionalEmbedding(d)]:
    both modules build the same sinusoidal rows. *)
Theorem X10_fixed_rows_are_positional (c_in d max_len : nat) (e : FixedEmbedding)
    (m : PositionalEmbedding) (Hev : d mod 2 = 0)
    (He : FixedEmbedding_init c_in d = Some e) (Hm : PositionalEmbedding_init d max_len = Some m) :
  forall p, p < c_in -> p < max_len ->
    nth p (emb_weight e) [] = nth p (nth 0 (rows (pe m)) []) [].
Proof.
  intros p Hp1 Hp2.
  pose proof (PositionalEmbedding_init_pos _ _ _ Hm) as Hd.
  assert (Hd2 : 2 <= d) by (destruct d as [|[|d]]; [lia|cbn in Hev; discriminate|lia]).
  destruct (sinusoid_table_even c_in d Hev Hd2) as (w1 & Hw1 & L1 & F1 & S1 & C1).
  destruct (sinusoid_table_even max_len d Hev Hd2) as (w2 & Hw2 & L2 & F2 & S2 & C2).
  unfold FixedEmbedding_init in He. rewrite Hw1 in He. injection He as <-.
  unfold PositionalEmbedding_init in Hm.
  replace (negb (d mod 2 =? 0)) with false in Hm by (rewrite Hev; reflexivity).
  rewrite Hw2 in Hm. injection Hm as <-. cbn [emb_weight pe rows nth].
  rewrite Forall_nth in F1, F2.
  apply nth_ext with (d := 0%R) (d' := 0%R).
  - rewrite (F1 p [] ltac:(lia)), (F2 p [] ltac:(lia)). reflexivity.
  - intros k Hk. rewrite (F1 p [] ltac:(lia)) in Hk.
    pose proof (Nat.div_mod_eq k 2) as E. pose proof (Nat.mod_upper_bound k 2 ltac:(lia)) as U.
    destruct (Nat.eq_dec (k mod 2) 0) as [K|K].
    + replace k with (2 * (k / 2)) by lia. rewrite S1, S2 by lia. reflexivity.
    + replace k with (2 * (k / 2) + 1) by lia. rewrite C1, C2 by lia. reflexivity.
Qed.

Lemma X10_witness :
  exists e m, FixedEmbedding_init 3 2 = Some e /\ PositionalEmbedding_init 2 5 = Some m /\
    nth 2 (emb_weight e) [] = nth 2 (nth 0 (rows (pe m)) []) [].
Proof.
  destruct (sinusoid_table_even 3 2 eq_refl ltac:(lia)) as (w & Hw & _).
  assert (He : FixedEmbedding_init 3 2 = Some (mkEmbedding 3 2 w false))
    by (unfold FixedEmbedding_init; rewrite Hw; reflexivity).
  destruct (PositionalEmbedding_init_spec 2 5 ltac:(lia)) as (m & Hm & _).
  exists (mkEmbedding 3 2 w false), m. split; [exact He|]. split; [exact Hm|].
  exact (X10_fixed_rows_are_positional 3 2 5 _ m eq_refl He Hm 2 ltac:(lia) ltac:(lia)).
Defined.

(** ** Sequence length against [max_len] *)

(** X11: [DataEmbedding.forward(x, None)] on [x] of shape [B, L, c_in]
    with [L >= 1] raises exactly when [L > 5000]: the positional slice
    then has 5000 positions and does not broadcast against [L]. Otherwise
    the output has shape [B, L, d_model]. *)
Theorem X11_data_embedding_max_len (torch_ge_1_5 : bool) (g : Draws) (c_in d_model : nat)
    (embed_type freq : string) (p : R) (m : DataEmbedding) (dd : DropoutDraw) (x : T3 R)
    (Hinit : DataEmbedding_init torch_ge_1_5 g c_in d_model embed_type freq p = Some m)
    (Hc : dim2 x = c_in) (HL : 1 <= dim1 x) :
  (DataEmbedding_forward torch_ge_1_5 m dd x None = None <-> max_len_default < dim1 x) /\
  (forall y, DataEmbedding_forward torch_ge_1_5 m dd x None = Some y ->
     dim0 y = dim0 x /\ dim1 y = dim1 x /\ dim2 y = d_model).
Proof.
  unfold DataEmbedding_init in Hinit.
  destruct (PositionalEmbedding_init d_model max_len_default) as [pos|] eqn:Hpos; [|discriminate].
  destruct (TemporalModule_init g d_model embed_type freq) as [tm|]; [|discriminate].
  injection Hinit as <-.
  unfold DataEmbedding_forward; cbn [de_value_embedding de_position_embedding de_dropout].
  destruct (TokenEmbedding_forward_dims torch_ge_1_5 c_in d_model (draw_conv g c_in d_model) x Hc HL
              (PositionalEmbedding_init_pos _ _ _ Hpos))
    as (v & Hv & V0 & V1 & V2).
  rewrite Hv.
  destruct (PositionalEmbedding_forward_dims pos x d_model max_len_default Hpos) as (Q0 & Q1 & Q2).
  destruct (add3_positional v (PositionalEmbedding_forward pos x) max_len_default)
    as (Hnone & Hsome); [unfold max_len_default; lia|exact Q0|rewrite Q1, V1; reflexivity|congruence|].
  destruct (add3 v (PositionalEmbedding_forward pos x)) as [s|] eqn:Es.
  - split; [split; [discriminate|intros H; rewrite <- V1 in H; apply Hnone in H; discriminate]|].
    intros y Hy. injection Hy as <-. destruct (Hsome s eq_refl) as (S0 & S1 & S2).
    destruct (apply_dropout_dims p dd s) as (D0 & D1 & D2). lia.
  - split; [split; [intros _; rewrite <- V1; apply Hnone; reflexivity|reflexivity]|discriminate].
Qed.

Lemma X11_witness :
  exists m, DataEmbedding_init true empty_draws 1 2 "timeF" "h" 0%R = Some m /\
    DataEmbedding_forward true m no_dropout
      (mkT3 1 (S max_len_default) 1 (repeat (repeat [0%R] (S max_len_default)) 1)) None = None.
Proof.
  destruct (PositionalEmbedding_init_spec 2 max_len_default ltac:(lia)) as (pm & Hpm & _).
  assert (Hm : exists m, DataEmbedding_init true empty_draws 1 2 "timeF" "h" 0%R = Some m)
    by (eexists; unfold DataEmbedding_init; rewrite Hpm; reflexivity).
  destruct Hm as [m Hm]. exists m. split; [exact Hm|].
  apply (proj1 (X11_data_embedding_max_len true empty_draws 1 2 "timeF" "h" 0%R m no_dropout
                  (mkT3 1 (S max_len_default) 1 (repeat (repeat [0%R] (S max_len_default)) 1)) Hm
                  eq_refl ltac:(cbn; lia))).
  cbn [dim1]. lia.
Defined.

(** X12: under the conditions where patching succeeds ([C, L, stride >= 1]
    and [patch_len <= L + stride]), [PatchEmbedding.forward] raises exactly
    when the number of patches [n = (L + stride - patch_len) / stride + 1]
    exceeds 5000 (the positional slice does not broadcast); otherwise it
    returns a tensor of shape [B * C, n, d_model] together with [C]. *)
Theorem X12_patch_count_max_len (torch_ge_1_5 : bool) (g : Draws) (d_model plen strd token_num : nat)
    (p : R) (m : PatchEmbedding) (dd : DropoutDraw) (x : T3 R)
    (Hinit : PatchEmbedding_init torch_ge_1_5 g d_model plen strd token_num p = Some m)
    (HC : 1 <= dim1 x) (HL : 1 <= dim2 x) (HS : 1 <= strd) (HP : plen <= dim2 x + strd) :
  let n := (dim2 x + strd - plen) / strd + 1 in
  (PatchEmbedding_forward torch_ge_1_5 m dd x = None <-> max_len_default < n) /\
  (forall y c, PatchEmbedding_forward torch_ge_1_5 m dd x = Some (y, c) ->
     c = dim1 x /\ dim0 y = dim0 x * dim1 x /\ dim1 y = n /\ dim2 y = d_model).
Proof.
  intros n. unfold PatchEmbedding_init in Hinit.
  destruct (PositionalEmbedding_init d_model max_len_default) as [pos|] eqn:Hpos; [|discriminate].
  injection Hinit as <-.
  unfold PatchEmbedding_forward.
  rewrite patchify_spec by (cbn [patch_len stride]; lia). cbn [patch_len stride].
  fold n. cbv beta iota.
  cbn [pa_value_embedding pa_position_embedding pa_dropout].
  set (xw := mkT3 _ n plen _).
  destruct (TokenEmbedding_forward_dims torch_ge_1_5 plen d_model (draw_conv g plen d_model) xw
              eq_refl ltac:(cbn; lia) (PositionalEmbedding_init_pos _ _ _ Hpos))
    as (v & Hv & V0 & V1 & V2).
  rewrite Hv.
  destruct (PositionalEmbedding_forward_dims pos xw d_model max_len_default Hpos) as (Q0 & Q1 & Q2).
  destruct (add3_positional v (PositionalEmbedding_forward pos xw) max_len_default)
    as (Hnone & Hsome); [unfold max_len_default; lia|exact Q0|rewrite Q1, V1; reflexivity|congruence|].
  change (dim1 xw) with n in V1. change (dim0 xw) with (dim0 x * dim1 x) in V0.
  destruct (add3 v (PositionalEmbedding_forward pos xw)) as [s|] eqn:Es.
  - split; [split; [discriminate|intros H; rewrite <- V1 in H; apply Hnone in H; discriminate]|].
    intros y c Hy. injection Hy as <- <-. destruct (Hsome s eq_refl) as (S0 & S1 & S2).
    destruct (apply_dropout_dims p dd s) as (D0 & D1 & D2). lia.
  - split; [split; [intros _; rewrite <- V1; apply Hnone; reflexivity|reflexivity]|discriminate].
Qed.

Lemma X12_witness :
  exists m y, PatchEmbedding_init true empty_draws 2 2 1 0 0%R = Some m /\
    PatchEmbedding_forward true m no_dropout (mkT3 1 1 3 [[[1; 2; 3]]]%R) = Some (y, 1) /\
    dim1 y = 3.
Proof.
  destruct (PositionalEmbedding_init_spec 2 max_len_default ltac:(lia)) as (pm & Hpm & _).
  assert (Hm : exists m, PatchEmbedding_init true empty_draws 2 2 1 0 0%R = Some m)
    by (eexists; unfold PatchEmbedding_init; rewrite Hpm; reflexivity).
  destruct Hm as [m Hm].
  destruct (X12_patch_count_max_len true empty_draws 2 2 1 0 0%R m no_dropout (mkT3 1 1 3 [[[1; 2; 3]]]%R)
              Hm ltac:(cbn; lia) ltac:(cbn; lia) ltac:(lia) ltac:(cbn; lia)) as (Hnone & Hsome).
  destruct (PatchEmbedding_forward true m no_dropout (mkT3 1 1 3 [[[1; 2; 3]]]%R)) as [[y c]|] eqn:E.
  - destruct (Hsome y c eq_refl) as (-> & _ & Hn & _).
    exists m, y. split; [exact Hm|]. split; [exact E|]. rewrite Hn. reflexivity.
  - exfalso. apply proj1 in Hnone. specialize (Hnone eq_refl). cbn in Hnone.
    unfold max_len_default in Hnone. lia.
Defined.

(** ** [x.long()] in [TemporalEmbedding] *)

Lemma map3_trunc_idem (x : T3 R) :
  map3 trunc_Z (map3 (fun r => IZR (trunc_Z r)) x) = map3 trunc_Z x.
Proof.
  destruct x as [d0 d1 d2 r]. unfold map3; cbn [dim0 dim1 dim2 rows]. f_equal.
  rewrite map_map. apply map_ext. intros a.
  rewrite map_map. apply map_ext. intros v.
  rewrite map_map. apply map_ext. intros z. apply trunc_Z_IZR.
Qed.

Lemma trunc_Z_bounds r :
  ((0 <= r)%R -> (IZR (trunc_Z r) <= r < IZR (trunc_Z r) + 1)%R) /\
  ((r < 0)%R -> (IZR (trunc_Z r) - 1 < r <= IZR (trunc_Z r))%R).
Proof.
  split.
  - intros Hr. unfold trunc_Z. destruct (Rle_dec 0 r) as [_|N]; [|contradiction].
    destruct (archimed r) as [A1 A2]. rewrite minus_IZR. cbn [IZR IPR]. lra.
  - intros Hr. unfold trunc_Z. destruct (Rle_dec 0 r) as [N|_]; [lra|].
    destruct (archimed (- r)) as [A1 A2]. rewrite opp_IZR, minus_IZR. cbn [IZR IPR]. lra.
Qed.

(** X13: [TemporalEmbedding.forward] casts its input with [x.long()]. For
    values strictly between [-2^63] and [2^63] this is truncation toward
    zero into the range of an int64: a non-negative value [r] becomes the
    integer [z] with [z <= r < z + 1], a negative one the integer [z] with
    [z - 1 < r <= z]; and on an input whose values all lie in that range,
    [forward] gives the same result on [x] and on its truncation. *)
Theorem X13_temporal_truncates (m : TemporalEmbedding) (x : T3 R)
    (Hx : Forall (Forall (Forall (fun r => (-9223372036854775808 < r < 9223372036854775808)%R)))
            (rows x)) :
  TemporalEmbedding_forward m x = TemporalEmbedding_forward m (map3 (fun r => IZR (trunc_Z r)) x) /\
  Forall (Forall (Forall (fun r =>
    (-9223372036854775808 <= trunc_Z r < 9223372036854775808)%Z /\
    ((0 <= r)%R -> (IZR (trunc_Z r) <= r < IZR (trunc_Z r) + 1)%R) /\
    ((r < 0)%R -> (IZR (trunc_Z r) - 1 < r <= IZR (trunc_Z r))%R)))) (rows x).
Proof.
  split.
  - unfold TemporalEmbedding_forward. rewrite map3_trunc_idem. reflexivity.
  - refine (Forall_impl _ _ Hx). intros a Ha.
    refine (Forall_impl _ _ Ha). intros v Hv.
    refine (Forall_impl _ _ Hv). intros r Hr.
    destruct (trunc_Z_bounds r) as [Hp Hn].
    split; [|split; assumption].
    destruct (Rle_or_lt 0 r) as [H0|H0].
    + destruct (Hp H0) as [B1 B2].
      assert (Hlo : (-1 < trunc_Z r)%Z) by (apply lt_IZR; lra).
      assert (Hhi : (trunc_Z r < 9223372036854775808)%Z) by (apply lt_IZR; lra).
      lia.
    + destruct (Hn H0) as [B1 B2].
      assert (Hlo : (-9223372036854775808 < trunc_Z r)%Z) by (apply lt_IZR; lra).
      assert (Hhi : (trunc_Z r < 1)%Z) by (apply lt_IZR; lra).
      lia.
Qed.

Lemma X13_witness :
  exists x : T3 R, x = mkT3 1 1 4 [[[5/2; 1; 0; -1/2]]]%R /\
    TemporalEmbedding_forward (mkTemporalEmbedding None (learned_embedding 24 1 [])
                                 (learned_embedding 7 1 []) (learned_embedding 32 1 [])
                                 (learned_embedding 13 1 [])) x =
    TemporalEmbedding_forward (mkTemporalEmbedding None (learned_embedding 24 1 [])
                                 (learned_embedding 7 1 []) (learned_embedding 32 1 [])
                                 (learned_embedding 13 1 [])) (map3 (fun r => IZR (trunc_Z r)) x).
Proof.
  exists (mkT3 1 1 4 [[[5/2; 1; 0; -1/2]]]%R). split; [reflexivity|].
  exact (proj1 (X13_temporal_truncates
                  (mkTemporalEmbedding None (learned_embedding 24 1 [])
                     (learned_embedding 7 1 []) (learned_embedding 32 1 [])
                     (learned_embedding 13 1 []))
                  (mkT3 1 1 4 [[[5/2; 1; 0; -1/2]]])%R
                  ltac:(cbn [rows]; repeat constructor; lra))).
Defined.

(** ** [d_model = 0] *)

(** X14: [PositionalEmbedding(d_model, max_len)] fails exactly when
    [d_model = 0] ([math.log(10000.0) / d_model] divides by zero); for every
    other width, odd ones included, it succeeds. [DataEmbedding] and
    [PatchEmbedding], which build one with [max_len = 5000], fail with it. *)
Theorem X14_positional_zero_width (torch_ge_1_5 : bool) (g : Draws) (c_in plen strd token_num : nat)
    (embed_type freq : string) (p : R) :
  (forall d_model max_len, PositionalEmbedding_init d_model max_len = None <-> d_model = 0) /\
  DataEmbedding_init torch_ge_1_5 g c_in 0 embed_type freq p = None /\
  PatchEmbedding_init torch_ge_1_5 g 0 plen strd token_num p = None.
Proof.
  assert (H0 : forall max_len, PositionalEmbedding_init 0 max_len = None).
  { intros max_len. unfold PositionalEmbedding_init. cbn [Nat.modulo Nat.eqb negb].
    rewrite sinusoid_table_zero. reflexivity. }
  split; [|split].
  - intros d_model max_len. split.
    + intros Hn. destruct d_model as [|d]; [reflexivity|].
      destruct (PositionalEmbedding_init_spec (S d) max_len ltac:(lia)) as (m & Hm & _).
      congruence.
    + intros ->. apply H0.
  - unfold DataEmbedding_init. rewrite H0. reflexivity.
  - unfold PatchEmbedding_init. rewrite H0. reflexivity.
Qed.
